(** * EduAccess Mapper: school distribution analysis

    A shallow embedding of the two analysis modules of the plugin,

      - [src/edu_access_mapper.py], method
        [SchoolDistributionAnalyzer.analyze_school_distribution]
        (spatial join, per-district counts, required and additional schools);
      - [src/utils/school_distribution_analysis.py], the nested functions
        [calculate_nearest_neighbor_distance], [calculate_coverage] and
        [calculate_spatial_dispersion].

    Conventions.

    - A population is a float64 value of the district table; it is modelled
      by the rational it denotes ([Q]).  The division of line 89 is the
      float64 division: the exact quotient rounded to the nearest float64, ties
      to even ([Capacity.float64_div]).  Counts are Python integers ([Z]).
    - Coordinates, distances and areas are float64 in the source; they are
      modelled by real numbers ([R]) with exact arithmetic, so the statements
      about them are statements up to the rounding of float64 sums, products
      and square roots, which is not modelled.  Where the source can produce
      an infinity or a not-a-number (division by zero, mean of an empty list),
      the outcome is modelled explicitly by [np_float].
    - A Python exception is a value of [PyExc]; a call that may raise returns
      [PyExc + A].
    - shapely, GEOS, pyproj and Qhull are libraries outside the repository:
      the predicate [within], the reprojection [reproject], the area of the
      buffered union and the diagram built by [Voronoi] are parameters of the
      sections below. *)

From Stdlib Require Import ZArith QArith Qround Qpower Reals Lra Lia List.
From stdpp Require Import base list strings gmap.

Local Open Scope Z_scope.

(** ** Exceptions *)

(** The exception classes the analysis code can raise, together with the
    error kinds named by the specification ([DataLoadError],
    [InvalidAttributeError], [InvalidParameterError],
    [InsufficientDataError]), which no statement of the source constructs. *)
Inductive PyExc : Type :=
  | QhullError
  | ValueError
  | KeyError
  | DataSourceError
  | DataLoadError
  | InvalidAttributeError
  | InvalidParameterError
  | InsufficientDataError.

(** ** Capacity and deficit arithmetic ([edu_access_mapper.py], lines 87-94) *)

Module Capacity.

(** [max_students_per_school = 2000] *)
Definition max_students_per_school : Q := 2000%Q.

(** [np.ceil] on a finite value. *)
Definition np_ceil (x : Q) : Z := Qceiling x.

Definition INT64_MIN : Z := - 2 ^ 63.
Definition INT64_MAX : Z := 2 ^ 63 - 1.

(** [.astype(int)]: the conversion of an integral float64 to int64; outside
    the int64 range the x86-64 conversion yields the most negative value. *)
Definition astype_int (z : Z) : Z :=
  if (INT64_MIN <=? z) && (z <=? INT64_MAX) then z else INT64_MIN.

(** *** float64 arithmetic

    A finite float64 is a rational [m * 2 ^ e] with [|m| < 2 ^ 53] and
    [-1074 <= e].  An operation on float64 values returns the exact result
    rounded to the nearest such rational, ties to the even [m]. *)

Definition pow2 (e : Z) : Q := (2 ^ e)%Q.

(** [floor (log2 q)] of a positive rational. *)
Definition ilog2 (q : Q) : Z :=
  let l := Z.log2 (Qnum q) - Z.log2 (Zpos (Qden q)) in
  if Qle_bool (pow2 l) q then l else l - 1.

(** The exponent [e] of the float64 values near [q]: 53 significant bits
    down to the subnormal exponent. *)
Definition float64_exponent (q : Q) : Z := Z.max (ilog2 q - 52) (-1074).

(** Rounding to the nearest integer, ties to the even one. *)
Definition round_half_even (y : Q) : Z :=
  let f := Qfloor y in
  match (y - inject_Z f ?= 1 # 2)%Q with
  | Lt => f
  | Gt => f + 1
  | Eq => if Z.even f then f else f + 1
  end.

Definition float64_round_pos (q : Q) : Q :=
  let e := float64_exponent q in
  (inject_Z (round_half_even (q / pow2 e)) * pow2 e)%Q.

(** The float64 nearest to [q], for [q] below the overflow threshold. *)
Definition float64_round (q : Q) : Q :=
  match (q ?= 0)%Q with
  | Eq => 0%Q
  | Gt => float64_round_pos q
  | Lt => (- float64_round_pos (- q))%Q
  end.

(** [x / y] on float64 values, [y] not zero. *)
Definition float64_div (x y : Q) : Q := float64_round (x / y).

(** [(cities_gdf['TOTAL_POP'] / max_students_per_school).apply(np.ceil).astype(int)],
    one row, for the float64 value [TOTAL_POP] of the column after line 88. *)
Definition required_schools (TOTAL_POP : Q) : Z :=
  astype_int (np_ceil (float64_div TOTAL_POP max_students_per_school)).

(** Python's builtin [max(a, b)]: the first argument unless the second is
    strictly greater. *)
Definition py_max (a b : Z) : Z := if b >? a then b else a.

(** [cities_gdf['required_schools'] - cities_gdf['current_schools']] followed by
    [.apply(lambda x: max(x, 0))], one row. *)
Definition additional_schools_needed (required current : Z) : Z :=
  py_max (required - current) 0.

End Capacity.

(** ** Spatial join and per-district tables ([edu_access_mapper.py], lines 72-101) *)

Module Analyzer.

(** A row of the district table: the two attribute columns the analysis reads
    and the polygon.  [TOTAL_POP] is the float64 value of the population
    column. *)
Record District (Geometry : Type) : Type := mkDistrict {
  DIST_NAME : string;
  TOTAL_POP : Q;
  geometry : Geometry
}.
Arguments mkDistrict {Geometry} _ _ _.
Arguments DIST_NAME {Geometry} _.
Arguments TOTAL_POP {Geometry} _.
Arguments geometry {Geometry} _.

(** A GeoDataFrame: a coordinate reference system and the rows. *)
Record GeoDataFrame (A : Type) : Type := mkFrame {
  crs : string;
  rows : list A
}.
Arguments mkFrame {A} _ _.
Arguments crs {A} _.
Arguments rows {A} _.

(** The dictionary returned by [analyze_school_distribution]. *)
Record AnalysisResult : Type := mkResult {
  res_total_schools : Z;
  res_schools_per_city : gmap string Z;
  res_required_schools : gmap string Z;
  res_additional_schools_needed : gmap string Z
}.

Section Join.
Context {Geometry : Type}.
(** shapely's [a.within(b)] *)
Variable within : Geometry -> Geometry -> bool.
(** pyproj's reprojection of one geometry, from a system to another *)
Variable reproject : string -> string -> Geometry -> Geometry.

(** [cities_gdf.to_crs(target)]: a new frame. *)
Definition to_crs (gdf : GeoDataFrame (District Geometry)) (target : string)
  : GeoDataFrame (District Geometry) :=
  mkFrame target
    (map (fun d => mkDistrict (DIST_NAME d) (TOTAL_POP d)
                     (reproject (crs gdf) target (geometry d)))
         (rows gdf)).

(** The districts a school is within, in the order of the district table. *)
Definition matching (cities : list (District Geometry)) (s : Geometry)
  : list (District Geometry) :=
  List.filter (fun d => within s (geometry d)) cities.

(** The rows [gpd.sjoin(..., how='left', predicate='within')] produces for
    one school: one row per matching district, or one row with missing
    district columns when there is none. *)
Definition sjoin_rows (cities : list (District Geometry)) (s : Geometry)
  : list (Geometry * option (District Geometry)) :=
  match matching cities s with
  | [] => [(s, None)]
  | ms => map (fun d => (s, Some d)) ms
  end.

Definition sjoin (schools : list Geometry) (cities : list (District Geometry))
  : list (Geometry * option (District Geometry)) :=
  flat_map (sjoin_rows cities) schools.

(** [.groupby('DIST_NAME').size()]: rows with a missing key are dropped,
    the others are counted per key. *)
Definition groupby_size (joined : list (Geometry * option (District Geometry)))
  : gmap string Z :=
  foldr (fun row acc =>
           match snd row with
           | Some d => <[DIST_NAME d := default 0 (acc !! DIST_NAME d) + 1]> acc
           | None => acc
           end) ∅ joined.

(** The rows of the join that carry a district of a given name. *)
Definition assigned_to (name : string)
    (joined : list (Geometry * option (District Geometry)))
  : list (Geometry * option (District Geometry)) :=
  List.filter (fun row => match snd row with
                          | Some d => String.eqb (DIST_NAME d) name
                          | None => false
                          end) joined.

(** The rows of the join that carry no district. *)
Definition unassigned (joined : list (Geometry * option (District Geometry))) : Z :=
  Z.of_nat (length (List.filter (fun row => match snd row with
                                            | None => true
                                            | Some _ => false
                                            end) joined)).

(** [df[[key, col]].set_index(key).to_dict()[col]]: the rows are entered in
    order, a later row replacing an earlier one with the same key. *)
Definition to_dict (index : list string) (col : list Z) : gmap string Z :=
  fold_left (fun acc kv => <[fst kv := snd kv]> acc) (zip index col) ∅.

(** Column [required_schools]. *)
Definition required_col (cities : list (District Geometry)) : list Z :=
  map (fun d => Capacity.required_schools (TOTAL_POP d)) cities.

(** Column [current_schools]:
    [cities_gdf['DIST_NAME'].map(schools_per_city).fillna(0)]. *)
Definition current_col (schools_per_city : gmap string Z)
    (cities : list (District Geometry)) : list Z :=
  map (fun d => default 0 (schools_per_city !! DIST_NAME d)) cities.

(** Column [additional_schools_needed], after both assignments.  The column
    is float64, [current_schools] being so after [fillna]; its values are whole
    numbers, which float64 holds exactly up to [2 ^ 53], and are modelled by
    integers. *)
Definition additional_col (required current : list Z) : list Z :=
  map (fun x => Capacity.py_max x 0) (zip_with Z.sub required current).

(** Lines 79-80: the district frame in the system of the school frame. *)
Definition common_crs (schools_gdf : GeoDataFrame Geometry)
    (cities_gdf : GeoDataFrame (District Geometry))
  : GeoDataFrame (District Geometry) :=
  if String.eqb (crs schools_gdf) (crs cities_gdf) then cities_gdf
  else to_crs cities_gdf (crs schools_gdf).

(** Lines 78-101 on the two loaded frames. *)
Definition analysis (schools_gdf : GeoDataFrame Geometry)
    (cities_gdf : GeoDataFrame (District Geometry)) : AnalysisResult :=
  let cities_gdf := common_crs schools_gdf cities_gdf in
  let schools_with_cities := sjoin (rows schools_gdf) (rows cities_gdf) in
  let schools_per_city := groupby_size schools_with_cities in
  let required := required_col (rows cities_gdf) in
  let current := current_col schools_per_city (rows cities_gdf) in
  let additional := additional_col required current in
  let names := map DIST_NAME (rows cities_gdf) in
  mkResult (Z.of_nat (length (rows schools_gdf)))
           schools_per_city
           (to_dict names required)
           (to_dict names additional).

End Join.

(** The sum of the values of a count table. *)
Definition total_count (m : gmap string Z) : Z :=
  map_fold (fun _ n acc => n + acc) 0 m.

Section JoinCounts.
Context {Geometry : Type}.
Variable within : Geometry -> Geometry -> bool.

(** The number of schools within the polygon of a district. *)
Definition schools_within (schools : list Geometry) (d : District Geometry) : Z :=
  Z.of_nat (length (List.filter (fun s => within s (geometry d)) schools)).

(** The schools that are within no district polygon. *)
Definition unmatched (schools : list Geometry) (cities : list (District Geometry))
  : list Geometry :=
  List.filter (fun s => match matching within cities s with
                        | [] => true
                        | _ :: _ => false
                        end) schools.

End JoinCounts.

End Analyzer.

(** A concrete geometry for examples: points and open axis-parallel
    rectangles on the integer grid, with strict containment. *)
Module Grid.

Inductive Geometry : Type :=
  | GPoint (x y : Z)
  | GRect (x0 y0 x1 y1 : Z).

Definition within (a b : Geometry) : bool :=
  match a, b with
  | GPoint x y, GRect x0 y0 x1 y1 =>
      (x0 <? x) && (x <? x1) && (y0 <? y) && (y <? y1)
  | _, _ => false
  end.

Definition reproject (_ _ : string) (g : Geometry) : Geometry := g.

(** Two districts, one nested in the other, one district apart from both, and
    schools inside and outside of them. *)
Definition district_A : Analyzer.District Geometry :=
  Analyzer.mkDistrict "A" 3000 (GRect 0 0 10 10).
Definition district_B : Analyzer.District Geometry :=
  Analyzer.mkDistrict "B" 500 (GRect 2 2 8 8).
Definition district_C : Analyzer.District Geometry :=
  Analyzer.mkDistrict "C" 4500 (GRect 20 20 30 30).

Definition one_school : Analyzer.GeoDataFrame Geometry :=
  Analyzer.mkFrame "EPSG:4326" [GPoint 5 5].
Definition two_schools : Analyzer.GeoDataFrame Geometry :=
  Analyzer.mkFrame "EPSG:4326" [GPoint 5 5; GPoint 50 50].

Definition nested_districts : Analyzer.GeoDataFrame (Analyzer.District Geometry) :=
  Analyzer.mkFrame "EPSG:4326" [district_A; district_B].
Definition separate_districts : Analyzer.GeoDataFrame (Analyzer.District Geometry) :=
  Analyzer.mkFrame "EPSG:4326" [district_A; district_C].

(** A second district named A, and a district table in which the name occurs
    twice. *)
Definition district_A_again : Analyzer.District Geometry :=
  Analyzer.mkDistrict "A" 7000 (GRect 40 40 60 60).
Definition shared_name_districts : Analyzer.GeoDataFrame (Analyzer.District Geometry) :=
  Analyzer.mkFrame "EPSG:4326" [district_A; district_C; district_A_again].

End Grid.

(** ** The method as run by the plugin: loading and frame updates
       ([edu_access_mapper.py], lines 72-107) *)

Module Session.
Import Analyzer.

Section Run.
Context {Geometry : Type}.
Variable within : Geometry -> Geometry -> bool.
Variable reproject : string -> string -> Geometry -> Geometry.

(** What [gpd.read_file] finds at the data source of a layer: a table of
    school geometries, or a district table with the columns [DIST_NAME] and
    [TOTAL_POP]. *)
Inductive Source : Type :=
  | SchoolSource (gdf : GeoDataFrame Geometry)
  | DistrictSource (gdf : GeoDataFrame (District Geometry)).

(** A GeoDataFrame object in memory.  A district frame carries the three
    derived columns once they have been assigned. *)
Inductive Frame : Type :=
  | SchoolFrame (gdf : GeoDataFrame Geometry)
  | CitiesFrame (gdf : GeoDataFrame (District Geometry))
                (required_schools current_schools additional_schools_needed
                   : option (list Z)).

(** The data sources of the project layers, keyed by [layer.source()], and
    the frames allocated so far; a frame is referred to by its position. *)
Record Env : Type := mkEnv {
  sources : gmap string Source;
  frames : list Frame
}.

Definition M (A : Type) : Type := Env -> (PyExc + A) * Env.

Definition ret {A} (a : A) : M A := fun env => (inr a, env).
Definition raise {A} (e : PyExc) : M A := fun env => (inl e, env).
Definition bind {A B} (c : M A) (k : A -> M B) : M B :=
  fun env =>
    match c env with
    | (inl e, env') => (inl e, env')
    | (inr a, env') => k a env'
    end.

Notation "'do' x <- c ; k" := (bind c (fun x => k))
  (at level 10, x name, c at level 100, k at level 200).
Notation "'run' c ; k" := (bind c (fun _ => k))
  (at level 10, c at level 100, k at level 200).

(** Allocation of a new frame object. *)
Definition new_frame (f : Frame) : M nat :=
  fun env => (inr (length (frames env)),
              mkEnv (sources env) (frames env ++ [f])).

Definition get_frame (ref : nat) : M Frame :=
  fun env =>
    match frames env !! ref with
    | Some f => (inr f, env)
    | None => (inl KeyError, env)
    end.

(** In-place update of a frame object (column assignment). *)
Definition put_frame (ref : nat) (f : Frame) : M unit :=
  fun env => (inr tt, mkEnv (sources env) (<[ref := f]> (frames env))).

(** [layer_to_geopandas]: [gpd.read_file(qgis_layer.source())]. *)
Definition layer_to_geopandas (qgis_layer : string) : M nat :=
  fun env =>
    match sources env !! qgis_layer with
    | Some (SchoolSource gdf) => new_frame (SchoolFrame gdf) env
    | Some (DistrictSource gdf) => new_frame (CitiesFrame gdf None None None) env
    | None => (inl DataSourceError, env)
    end.

(** [.astype(float)] on a column of float64 values: the values are unchanged. *)
Definition astype_float (gdf : GeoDataFrame (District Geometry))
  : GeoDataFrame (District Geometry) :=
  mkFrame (crs gdf)
    (map (fun d => mkDistrict (DIST_NAME d) (TOTAL_POP d) (geometry d)) (rows gdf)).

(** Reading a column of a district frame; a missing column is a [KeyError]. *)
Definition column (c : option (list Z)) : M (list Z) :=
  match c with
  | Some l => ret l
  | None => raise KeyError
  end.

(** Access to a district frame; any other object has no district columns. *)
Definition with_cities {A} (ref : nat)
    (k : GeoDataFrame (District Geometry) ->
         option (list Z) -> option (list Z) -> option (list Z) -> M A) : M A :=
  do f <- get_frame ref;
  match f with
  | CitiesFrame g req cur add => k g req cur add
  | SchoolFrame _ => raise KeyError
  end.

(** [analyze_school_distribution(self, school_layer, cities_layer)].
    A school table lacks the column [DIST_NAME], and a district table given
    as the school layer makes the join rename that column, so in both cases
    the [groupby('DIST_NAME')] of line 84 raises [KeyError]. *)
Definition analyze_school_distribution (school_layer cities_layer : string)
  : M AnalysisResult :=
  do schools_ref <- layer_to_geopandas school_layer;
  do cities_ref <- layer_to_geopandas cities_layer;
  do sf <- get_frame schools_ref;
  match sf with
  | CitiesFrame _ _ _ _ => raise KeyError
  | SchoolFrame schools_gdf =>
      (* lines 79-80 *)
      do cities_ref <-
        with_cities cities_ref (fun cities_gdf _ _ _ =>
          if String.eqb (crs schools_gdf) (crs cities_gdf) then ret cities_ref
          else new_frame (CitiesFrame (to_crs reproject cities_gdf (crs schools_gdf))
                                      None None None));
      (* lines 83-84 *)
      do schools_per_city <-
        with_cities cities_ref (fun cities_gdf _ _ _ =>
          ret (groupby_size (sjoin within (rows schools_gdf) (rows cities_gdf))));
      (* line 88 *)
      run with_cities cities_ref (fun g req cur add =>
            put_frame cities_ref (CitiesFrame (astype_float g) req cur add));
      (* line 89 *)
      run with_cities cities_ref (fun g _ cur add =>
            put_frame cities_ref (CitiesFrame g (Some (required_col (rows g))) cur add));
      (* line 92 *)
      run with_cities cities_ref (fun g req _ add =>
            put_frame cities_ref
              (CitiesFrame g req (Some (current_col schools_per_city (rows g))) add));
      (* line 93 *)
      run with_cities cities_ref (fun g req cur _ =>
            do r <- column req;
            do c <- column cur;
            put_frame cities_ref (CitiesFrame g req cur (Some (zip_with Z.sub r c))));
      (* line 94 *)
      run with_cities cities_ref (fun g req cur add =>
            do a <- column add;
            put_frame cities_ref
              (CitiesFrame g req cur (Some (map (fun x => Capacity.py_max x 0) a))));
      (* lines 96-101 *)
      with_cities cities_ref (fun g req _ add =>
        do r <- column req;
        do a <- column add;
        ret (mkResult (Z.of_nat (length (rows schools_gdf)))
                      schools_per_city
                      (to_dict (map DIST_NAME (rows g)) r)
                      (to_dict (map DIST_NAME (rows g)) a)))
  end.

(** What a run returns, as a function of what the two layer sources hold. *)
Definition expected_outcome (school_source cities_source : option Source)
  : PyExc + AnalysisResult :=
  match school_source, cities_source with
  | Some (SchoolSource schools_gdf), Some (DistrictSource cities_gdf) =>
      inr (analysis within reproject schools_gdf cities_gdf)
  | Some _, Some _ => inl KeyError
  | _, _ => inl DataSourceError
  end.

End Run.

Arguments SchoolSource {Geometry} _.
Arguments DistrictSource {Geometry} _.
Arguments SchoolFrame {Geometry} _.
Arguments CitiesFrame {Geometry} _ _ _ _.
Arguments mkEnv {Geometry} _ _.
Arguments sources {Geometry} _.
Arguments frames {Geometry} _.

(** A project with a school layer and a district layer on the integer grid,
    and no frame in memory yet. *)
Definition grid_project : Env :=
  mkEnv (<["schools.shp" := SchoolSource Grid.two_schools]>
           (<["districts.shp" := DistrictSource Grid.separate_districts]> ∅))
        [].

End Session.

(** ** Spatial statistics ([utils/school_distribution_analysis.py]) *)

Module Spatial.

Local Open Scope R_scope.

(** A point geometry, as its coordinate pair [(p.x, p.y)]. *)
Definition coord : Type := (R * R)%type.

(** A float64 result that may be an infinity or not-a-number.  The sign of an
    infinity depends on the sign of a float zero, which the real-number model
    does not track: [Inf] stands for either infinity. *)
Inductive np_float : Type :=
  | Finite (r : R)
  | Inf
  | NaN.

Definition Rsum (l : list R) : R := fold_right Rplus 0 l.

(** The arithmetic mean of a non-empty list, as an exact real number: the
    value [np.mean] approximates, the rounding of its float64 sum and quotient
    left aside. *)
Definition mean (l : list R) : R := Rsum l / INR (length l).

(** [np.mean]: not-a-number (and a warning) on an empty list. *)
Definition np_mean (l : list R) : np_float :=
  match l with
  | [] => NaN
  | _ :: _ => Finite (mean l)
  end.

(** [np.min] and [np.max]: [ValueError] on an empty list. *)
Definition np_min (l : list R) : PyExc + R :=
  match l with
  | [] => inl ValueError
  | x :: l' => inr (fold_left Rmin l' x)
  end.

Definition np_max (l : list R) : PyExc + R :=
  match l with
  | [] => inl ValueError
  | x :: l' => inr (fold_left Rmax l' x)
  end.

(** [np.std] of a non-empty list: the population standard deviation,
    [sqrt(mean(abs(x - x.mean())**2))]. *)
Definition std (l : list R) : R :=
  sqrt (mean (map (fun x => Rabs (x - mean l) ^ 2) l)).

Definition np_std (l : list R) : np_float :=
  match l with
  | [] => NaN
  | _ :: _ => Finite (std l)
  end.

(** [np.linalg.norm(a - b)] and shapely's [a.distance(b)] for two points. *)
Definition distance (a b : coord) : R :=
  sqrt ((fst a - fst b) ^ 2 + (snd a - snd b) ^ 2).

(** *** Nearest-neighbour statistics (lines 42-57) *)

(** The attributes of a [scipy.spatial.Voronoi] object: the Voronoi vertices,
    for each ridge the indices of the two input points it separates
    ([ridge_points]), and for each ridge the indices of the Voronoi vertices
    that bound it ([ridge_vertices]), where [-1] stands for a vertex at
    infinity. *)
Record Voronoi_diagram : Type := mkVoronoi {
  vertices : list coord;
  ridge_points : list (Z * Z);
  ridge_vertices : list (list Z)
}.

Record NearestNeighborStats : Type := mkNNStats {
  mean_nearest_neighbor_distance : np_float;
  min_nearest_neighbor_distance : R;
  max_nearest_neighbor_distance : R
}.

(** [all(0 <= r < len(coords) for r in ridge)] *)
Definition ridge_in_range (n : nat) (ridge : Z * Z) : bool :=
  ((0 <=? fst ridge)%Z && (fst ridge <? Z.of_nat n)%Z) &&
  ((0 <=? snd ridge)%Z && (snd ridge <? Z.of_nat n)%Z).

(** [coords[i]] for an index in range. *)
Definition at_index (coords : list coord) (i : Z) : coord :=
  nth (Z.to_nat i) coords (0, 0).

(** The list comprehension of lines 48-51. *)
Definition ridge_lengths (coords : list coord) (vor : Voronoi_diagram) : list R :=
  map (fun ridge => distance (at_index coords (fst ridge)) (at_index coords (snd ridge)))
      (List.filter (ridge_in_range (length coords)) (ridge_points vor)).

Section Proximity.
(** [scipy.spatial.Voronoi(coords)]: the diagram, or the exception Qhull
    raises. *)
Variable Voronoi : list coord -> PyExc + Voronoi_diagram.

(** [calculate_nearest_neighbor_distance(geometry_series)].  The dictionary
    is built in the order mean, min, max: on an empty list [np.mean] yields
    not-a-number and [np.min] then raises. *)
Definition calculate_nearest_neighbor_distance (geometry_series : list coord)
  : PyExc + NearestNeighborStats :=
  let coords := geometry_series in
  match Voronoi coords with
  | inl e => inl e
  | inr vor =>
      let lengths := ridge_lengths coords vor in
      let m := np_mean lengths in
      match np_min lengths with
      | inl e => inl e
      | inr lo =>
          match np_max lengths with
          | inl e => inl e
          | inr hi => inr (mkNNStats m lo hi)
          end
      end
  end.
End Proximity.

(** A ridge is bounded when none of its Voronoi vertices is the vertex at
    infinity. *)
Definition bounded_ridge (vs : list Z) : bool :=
  forallb (fun v => negb (v =? -1)%Z) vs.

(** The distance list the specification describes: the ridges that extend to
    infinity are left out. *)
Definition finite_ridge_lengths (coords : list coord) (vor : Voronoi_diagram) : list R :=
  map (fun rv => distance (at_index coords (fst (fst rv))) (at_index coords (snd (fst rv))))
      (List.filter (fun rv => bounded_ridge (snd rv))
                   (combine (ridge_points vor) (ridge_vertices vor))).

(** *** Coverage (lines 65-73) *)

Record CoverageStats : Type := mkCoverage {
  total_coverage_area : R;
  coverage_percentage : np_float
}.

(** [GeoSeries.total_bounds]: [(minx, miny, maxx, maxy)] of a non-empty
    series; four not-a-numbers for an empty one ([None]). *)
Definition total_bounds (pts : list coord) : option (R * R * R * R) :=
  match pts with
  | [] => None
  | p :: ps =>
      Some (fold_left Rmin (map fst ps) (fst p),
            fold_left Rmin (map snd ps) (snd p),
            fold_left Rmax (map fst ps) (fst p),
            fold_left Rmax (map snd ps) (snd p))
  end.

(** [ndarray.prod()] of the four bounds. *)
Definition bounds_prod (b : option (R * R * R * R)) : np_float :=
  match b with
  | None => NaN
  | Some (minx, miny, maxx, maxy) => Finite (minx * miny * maxx * maxy)
  end.

(** Float division of a finite value: a zero divisor gives an infinity, or
    not-a-number when the dividend is zero as well; no exception is raised. *)
Definition np_div (x : R) (y : np_float) : np_float :=
  match y with
  | Finite d =>
      if Req_dec_T d 0 then (if Req_dec_T x 0 then NaN else Inf)
      else Finite (x / d)
  | Inf => Finite 0
  | NaN => NaN
  end.

Definition np_mul (x : np_float) (k : R) : np_float :=
  match x with
  | Finite r => Finite (r * k)
  | Inf => if Req_dec_T k 0 then NaN else Inf
  | NaN => NaN
  end.

Section Coverage.
(** [schools_geometry.buffer(d).unary_union.area], computed by GEOS. *)
Variable buffered_union_area : list coord -> R -> R.

(** [calculate_coverage(schools_geometry, buffer_distance=10)] *)
Definition calculate_coverage (schools_geometry : list coord) (buffer_distance : R)
  : CoverageStats :=
  let total_coverage := buffered_union_area schools_geometry buffer_distance in
  mkCoverage total_coverage
    (np_mul (np_div total_coverage (bounds_prod (total_bounds schools_geometry))) 100).
End Coverage.

(** The area of the bounding rectangle of a non-empty point set, as the
    specification defines the divisor of the percentage. *)
Definition bounding_rectangle_area (pts : list coord) : R :=
  match total_bounds pts with
  | Some (minx, miny, maxx, maxy) => (maxx - minx) * (maxy - miny)
  | None => 0
  end.

(** *** Dispersion (lines 78-94) *)

Record DispersionStats : Type := mkDispersion {
  mean_distance_from_center : np_float;
  std_distance_from_center : np_float
}.

(** [Point(centroids.x.mean(), centroids.y.mean())] for a non-empty series of
    points, each of which is its own centroid. *)
Definition centroid_of_centroids (geometry_series : list coord) : coord :=
  (mean (map fst geometry_series), mean (map snd geometry_series)).

Definition distances_from_center (geometry_series : list coord) : list R :=
  map (fun centroid => distance centroid (centroid_of_centroids geometry_series))
      geometry_series.

(** [calculate_spatial_dispersion(geometry_series)] *)
Definition calculate_spatial_dispersion (geometry_series : list coord) : DispersionStats :=
  mkDispersion (np_mean (distances_from_center geometry_series))
               (np_std (distances_from_center geometry_series)).

(** The population standard deviation as the specification words it: the
    square root of the mean squared deviation from the mean. *)
Definition population_std (l : list R) : R :=
  sqrt (Rsum (map (fun x => (x - mean l) * (x - mean l)) l) / INR (length l)).

(** *** Concrete point sets *)

(** The corners of a 6 by 8 rectangle and its centre. *)
Definition rectangle_coords : list coord :=
  [(0, 0); (3, 4); (3, -4); (-3, 4); (-3, -4)].

(** The Voronoi diagram of [rectangle_coords].  The cell of the centre is the
    rhombus with the four Voronoi vertices below; the four ridges between the
    centre and a corner are bounded, the four ridges between neighbouring
    corners run from a vertex of the rhombus to infinity. *)
Definition rectangle_diagram : Voronoi_diagram :=
  mkVoronoi
    [(25 / 6, 0); (0, 25 / 8); (- 25 / 6, 0); (0, - 25 / 8)]
    [(0, 1); (0, 2); (0, 3); (0, 4); (1, 2); (1, 3); (3, 4); (2, 4)]%Z
    [[0; 1]; [0; 3]; [1; 2]; [2; 3]; [-1; 0]; [-1; 1]; [-1; 2]; [-1; 3]]%Z.

End Spatial.

(** ** The analysis of the utility module
       ([utils/school_distribution_analysis.py], lines 6-100) *)

Module Overview.
Import Spatial.

(** ['basic_metrics']: the number of schools and the mean location. *)
Record BasicMetrics : Type := mkBasic {
  total_schools : Z;
  mean_location_latitude : np_float;
  mean_location_longitude : np_float
}.

(** ['district_distribution']: the count table and the districts without a
    school, a list built from a set difference, in no particular order. *)
Record DistrictDistribution : Type := mkDistribution {
  school_count_by_district : gmap string Z;
  districts_with_no_schools : gset string
}.

Record AnalysisResults : Type := mkResults {
  basic_metrics : BasicMetrics;
  district_distribution : option DistrictDistribution;
  spatial_accessibility : NearestNeighborStats;
  coverage : CoverageStats;
  spatial_dispersion : DispersionStats
}.

Section Analysis.
Context {Geometry : Type}.
(** [(p.x, p.y)] of a school point, which is also its centroid *)
Variable point_xy : Geometry -> coord.
(** shapely's [a.intersects(b)], the default predicate of [gpd.sjoin] *)
Variable intersects : Geometry -> Geometry -> bool.
Variable Voronoi : list coord -> PyExc + Voronoi_diagram.
Variable buffered_union_area : list coord -> R -> R.

(** Lines 30-39.  The name column of the district table is ['district_name']
    here; the rows are those of [Analyzer.District], whose name field holds
    it. *)
Definition district_distribution_of (schools_gdf : list Geometry)
    (districts_gdf : list (Analyzer.District Geometry)) : DistrictDistribution :=
  let schools_with_districts := Analyzer.sjoin intersects schools_gdf districts_gdf in
  let district_school_counts := Analyzer.groupby_size schools_with_districts in
  mkDistribution district_school_counts
    (list_to_set (map Analyzer.DIST_NAME districts_gdf) ∖ dom district_school_counts).

(** [analyze_school_distribution(input_layer, districts_layer=None)], on the
    school table and the optional district table as read.  The sections are
    computed in the order of the source; the nearest-neighbour section is the
    one that can raise, and nothing catches its exception. *)
Definition analyze_school_distribution (schools_gdf : list Geometry)
    (districts_gdf : option (list (Analyzer.District Geometry)))
  : PyExc + AnalysisResults :=
  let coords := map point_xy schools_gdf in
  let basic := mkBasic (Z.of_nat (length schools_gdf))
                       (np_mean (map snd coords)) (np_mean (map fst coords)) in
  let distribution := option_map (district_distribution_of schools_gdf) districts_gdf in
  match calculate_nearest_neighbor_distance Voronoi coords with
  | inl e => inl e
  | inr accessibility =>
      inr (mkResults basic distribution accessibility
             (calculate_coverage buffered_union_area coords 10)
             (calculate_spatial_dispersion coords))
  end.

End Analysis.

End Overview.

(** * Properties *)

(** ** Rounding to float64 *)

Module Float64Facts.
Import Capacity.
Local Open Scope Q_scope.

Lemma pow2_pos (e : Z) : 0 < pow2 e.
Proof. unfold pow2. apply Qpower_0_lt. reflexivity. Qed.

Lemma pow2_plus (a b : Z) : pow2 (a + b) == pow2 a * pow2 b.
Proof. unfold pow2. apply Qpower_plus. discriminate. Qed.

Lemma pow2_le (a b : Z) : (a <= b)%Z -> pow2 a <= pow2 b.
Proof. intros H. unfold pow2. apply Qpower_le_compat_l; [exact H|discriminate]. Qed.

Lemma pow2_lt_inv (a b : Z) : pow2 a < pow2 b -> (a < b)%Z.
Proof. intros H. unfold pow2 in H. eapply Qpower_lt_compat_l_inv; [exact H|reflexivity]. Qed.

Lemma pow2_Z (e : Z) : (0 <= e)%Z -> pow2 e == inject_Z (2 ^ e).
Proof. intros H. unfold pow2. now rewrite Zpower_Qpower. Qed.

Lemma pow2_cancel (e : Z) : pow2 (- e) * pow2 e == 1.
Proof. rewrite <- pow2_plus. replace (- e + e)%Z with 0%Z by lia. reflexivity. Qed.

Lemma Q_num_den (q : Q) : q * inject_Z (Zpos (Qden q)) == inject_Z (Qnum q).
Proof.
  destruct q as [a b]. unfold Qeq. simpl. rewrite Pos.mul_1_r. ring.
Qed.

Lemma ilog2_spec (q : Q) : 0 < q -> pow2 (ilog2 q) <= q /\ q < pow2 (ilog2 q + 1).
Proof.
  intros Hq.
  assert (Ha : (0 < Qnum q)%Z).
  { destruct q as [a b]. unfold Qlt in Hq. cbn in Hq.
    rewrite Z.mul_1_r in Hq. exact Hq. }
  set (a := Qnum q) in *. set (b := Zpos (Qden q)).
  assert (Hb : (0 < b)%Z) by (unfold b; lia).
  destruct (Z.log2_spec a Ha) as [Ha1 Ha2].
  destruct (Z.log2_spec b Hb) as [Hb1 Hb2].
  pose proof (Z.log2_nonneg a) as Hla. pose proof (Z.log2_nonneg b) as Hlb.
  assert (Hqb : q * inject_Z b == inject_Z a) by apply Q_num_den.
  assert (Hbq : 0 < inject_Z b) by (rewrite <- (Zlt_Qlt 0); exact Hb).
  set (l := (Z.log2 a - Z.log2 b)%Z).
  assert (Hup : q < pow2 (l + 1)).
  { apply Qmult_lt_r with (inject_Z b); [exact Hbq|]. rewrite Hqb.
    apply Qlt_le_trans with (pow2 (l + 1) * pow2 (Z.log2 b)).
    - rewrite <- pow2_plus. replace (l + 1 + Z.log2 b)%Z with (Z.succ (Z.log2 a)) by (unfold l; lia).
      rewrite pow2_Z by lia. now rewrite <- Zlt_Qlt.
    - apply Qmult_le_l; [apply pow2_pos|]. rewrite pow2_Z by lia. now rewrite <- Zle_Qle. }
  assert (Hlow : pow2 (l - 1) <= q).
  { apply Qmult_le_r with (inject_Z b); [exact Hbq|]. rewrite Hqb.
    apply Qle_trans with (pow2 (l - 1) * pow2 (Z.succ (Z.log2 b))).
    - apply Qmult_le_l; [apply pow2_pos|]. rewrite pow2_Z by lia.
      rewrite <- Zle_Qle. lia.
    - rewrite <- pow2_plus. replace (l - 1 + Z.succ (Z.log2 b))%Z with (Z.log2 a) by (unfold l; lia).
      rewrite pow2_Z by lia. now rewrite <- Zle_Qle. }
  unfold ilog2. fold a b l.
  destruct (Qle_bool (pow2 l) q) eqn:Ht.
  - apply Qle_bool_iff in Ht. split; assumption.
  - assert (Hlt : q < pow2 l).
    { apply Qnot_le_lt. intros H. apply Qle_bool_iff in H. congruence. }
    split; [exact Hlow|]. now replace (l - 1 + 1)%Z with l by lia.
Qed.

Lemma ilog2_lt (q : Q) (n : Z) : 0 < q -> q < pow2 n -> (ilog2 q < n)%Z.
Proof.
  intros Hq Hn. destruct (ilog2_spec q Hq) as [Hlo _].
  apply pow2_lt_inv. eapply Qle_lt_trans; eassumption.
Qed.

Lemma ilog2_ge (q : Q) (n : Z) : 0 < q -> pow2 n <= q -> (n <= ilog2 q)%Z.
Proof.
  intros Hq Hn. destruct (ilog2_spec q Hq) as [_ Hup].
  assert (H : (n < ilog2 q + 1)%Z)
    by (apply pow2_lt_inv; eapply Qle_lt_trans; eassumption).
  lia.
Qed.

Lemma ilog2_mono (x y : Q) : 0 < x -> x <= y -> (ilog2 x <= ilog2 y)%Z.
Proof.
  intros Hx Hxy. apply ilog2_ge.
  - eapply Qlt_le_trans; eassumption.
  - destruct (ilog2_spec x Hx) as [Hlo _]. eapply Qle_trans; eassumption.
Qed.

(** Rounding to the nearest integer. *)

Lemma round_half_even_cases (y : Q) :
  (round_half_even y = Qfloor y /\ y - inject_Z (Qfloor y) <= 1 # 2) \/
  (round_half_even y = (Qfloor y + 1)%Z /\ 1 # 2 <= y - inject_Z (Qfloor y)).
Proof.
  unfold round_half_even.
  destruct (Qcompare_spec (y - inject_Z (Qfloor y)) (1 # 2)) as [H|H|H].
  - destruct (Z.even (Qfloor y)).
    + left. split; [reflexivity|]. rewrite H. apply Qle_refl.
    + right. split; [reflexivity|]. rewrite H. apply Qle_refl.
  - left. split; [reflexivity|]. now apply Qlt_le_weak.
  - right. split; [reflexivity|]. now apply Qlt_le_weak.
Qed.

Lemma round_half_even_ge_floor (y : Q) : (Qfloor y <= round_half_even y)%Z.
Proof. destruct (round_half_even_cases y) as [[-> _]|[-> _]]; lia. Qed.

Lemma round_half_even_le_int (y : Q) (K : Z) : y <= inject_Z K -> (round_half_even y <= K)%Z.
Proof.
  intros Hy.
  assert (Hf : (Qfloor y <= K)%Z).
  { rewrite <- (Qfloor_Z K). now apply Qfloor_resp_le. }
  destruct (round_half_even_cases y) as [[-> _]|[-> Hr]]; [exact Hf|].
  assert (Hlt : inject_Z (Qfloor y) < inject_Z K).
  { apply Qlt_le_trans with y; [|exact Hy].
    apply Qlt_le_trans with (inject_Z (Qfloor y) + (1 # 2)).
    - rewrite <- (Qplus_0_r (inject_Z (Qfloor y))) at 1.
      apply Qplus_lt_r. reflexivity.
    - apply Qle_trans with (inject_Z (Qfloor y) + (y - inject_Z (Qfloor y))).
      + apply Qplus_le_r. exact Hr.
      + ring_simplify. apply Qle_refl. }
  rewrite <- Zlt_Qlt in Hlt. lia.
Qed.

Lemma round_half_even_ge_int (y : Q) (K : Z) : inject_Z K <= y -> (K <= round_half_even y)%Z.
Proof.
  intros Hy. pose proof (round_half_even_ge_floor y).
  assert (Hf : (K <= Qfloor y)%Z).
  { rewrite <- (Qfloor_Z K). now apply Qfloor_resp_le. }
  lia.
Qed.

Lemma round_half_even_gt_half (y : Q) (J : Z) :
  inject_Z J + (1 # 2) < y -> (J + 1 <= round_half_even y)%Z.
Proof.
  intros Hy.
  assert (Hf : (J <= Qfloor y)%Z).
  { rewrite <- (Qfloor_Z J). apply Qfloor_resp_le.
    apply Qle_trans with (inject_Z J + (1 # 2)); [|now apply Qlt_le_weak].
    rewrite <- (Qplus_0_r (inject_Z J)) at 1. apply Qplus_le_r. discriminate. }
  destruct (round_half_even_cases y) as [[-> Hr]|[-> _]]; [|lia].
  assert (Hlt : inject_Z J < inject_Z (Qfloor y)).
  { apply Qplus_lt_l with (1 # 2). eapply Qlt_le_trans; [exact Hy|].
    apply Qle_trans with (inject_Z (Qfloor y) + (y - inject_Z (Qfloor y))).
    - ring_simplify. apply Qle_refl.
    - apply Qplus_le_r. exact Hr. }
  rewrite <- Zlt_Qlt in Hlt. lia.
Qed.

Lemma round_half_even_mono (x y : Q) : x <= y -> (round_half_even x <= round_half_even y)%Z.
Proof.
  intros Hxy.
  pose proof (Qfloor_resp_le x y Hxy) as Hf.
  destruct (Z.eq_dec (Qfloor x) (Qfloor y)) as [Heq|Hne].
  - unfold round_half_even. rewrite <- Heq.
    assert (Hr : x - inject_Z (Qfloor x) <= y - inject_Z (Qfloor x)).
    { apply Qplus_le_l. exact Hxy. }
    destruct (Qcompare_spec (x - inject_Z (Qfloor x)) (1 # 2)) as [H|H|H];
      destruct (Qcompare_spec (y - inject_Z (Qfloor x)) (1 # 2)) as [H'|H'|H'];
      try (destruct (Z.even (Qfloor x))); try lia;
      exfalso; apply (Qlt_irrefl (1 # 2));
      first [ rewrite H in Hr; eapply Qle_lt_trans; eassumption
            | rewrite H' in Hr; eapply Qlt_le_trans; eassumption
            | eapply Qlt_trans; [exact H|]; eapply Qle_lt_trans; eassumption ].
  - pose proof (round_half_even_ge_floor y).
    destruct (round_half_even_cases x) as [[-> _]|[-> _]]; lia.
Qed.

Lemma round_half_even_nonneg (y : Q) : 0 <= y -> (0 <= round_half_even y)%Z.
Proof. intros H. now apply round_half_even_ge_int. Qed.

(** Rounding to the nearest float64. *)

Lemma div_pow2 (x : Q) (e : Z) : x / pow2 e == x * pow2 (- e).
Proof. unfold Qdiv, pow2. now rewrite Qpower_opp. Qed.

Lemma int_div_pow2 (K e : Z) :
  (e <= 0)%Z -> inject_Z K / pow2 e == inject_Z (K * 2 ^ (- e)).
Proof.
  intros He. rewrite div_pow2, pow2_Z by lia. now rewrite inject_Z_mult.
Qed.

Lemma int_mul_pow2 (K e : Z) :
  (e <= 0)%Z -> inject_Z (K * 2 ^ (- e)) * pow2 e == inject_Z K.
Proof.
  intros He. rewrite inject_Z_mult, <- pow2_Z by lia.
  rewrite <- Qmult_assoc, pow2_cancel. apply Qmult_1_r.
Qed.

Lemma float64_round_pos_nonneg (x : Q) : 0 <= x -> 0 <= float64_round_pos x.
Proof.
  intros Hx. unfold float64_round_pos.
  apply Qmult_le_0_compat; [|apply Qlt_le_weak, pow2_pos].
  change 0 with (inject_Z 0). rewrite <- Zle_Qle. apply round_half_even_nonneg.
  apply Qle_shift_div_l; [apply pow2_pos|]. now rewrite Qmult_0_l.
Qed.

Lemma float64_round_pos_le_int (x : Q) (K : Z) :
  (float64_exponent x <= 0)%Z -> x <= inject_Z K ->
  float64_round_pos x <= inject_Z K.
Proof.
  intros He Hx. unfold float64_round_pos.
  set (e := float64_exponent x) in *.
  rewrite <- (int_mul_pow2 K e He).
  apply Qmult_le_compat_r; [|apply Qlt_le_weak, pow2_pos].
  rewrite <- Zle_Qle. apply round_half_even_le_int.
  rewrite <- (int_div_pow2 K e He).
  apply Qmult_le_compat_r; [exact Hx|].
  apply Qlt_le_weak, Qinv_lt_0_compat, pow2_pos.
Qed.

Lemma float64_round_pos_gt_int (x : Q) (J : Z) :
  (float64_exponent x <= 0)%Z ->
  inject_Z J + (1 # 2) * pow2 (float64_exponent x) < x ->
  inject_Z J < float64_round_pos x.
Proof.
  intros He Hx. unfold float64_round_pos.
  set (e := float64_exponent x) in *.
  assert (Hm : (J * 2 ^ (- e) + 1 <= round_half_even (x / pow2 e))%Z).
  { apply round_half_even_gt_half. rewrite <- (int_div_pow2 J e He).
    apply Qle_lt_trans with ((inject_Z J + (1 # 2) * pow2 e) / pow2 e).
    - apply Qle_lteq. right.
      field. apply Qnot_eq_sym, Qlt_not_eq, pow2_pos.
    - apply Qmult_lt_compat_r; [|exact Hx].
      apply Qinv_lt_0_compat, pow2_pos. }
  apply Qlt_le_trans with (inject_Z (J * 2 ^ (- e) + 1) * pow2 e).
  - rewrite inject_Z_plus, Qmult_plus_distr_l, (int_mul_pow2 J e He).
    rewrite <- (Qplus_0_r (inject_Z J)) at 1. apply Qplus_lt_r.
    rewrite Qmult_1_l. apply pow2_pos.
  - apply Qmult_le_compat_r; [|apply Qlt_le_weak, pow2_pos].
    now rewrite <- Zle_Qle.
Qed.

Lemma float64_exponent_mono (x y : Q) :
  0 < x -> x <= y -> (float64_exponent x <= float64_exponent y)%Z.
Proof.
  intros Hx Hxy. unfold float64_exponent.
  pose proof (ilog2_mono x y Hx Hxy). lia.
Qed.

Lemma float64_round_pos_mono (x y : Q) :
  0 < x -> x <= y -> float64_round_pos x <= float64_round_pos y.
Proof.
  intros Hx Hxy.
  assert (Hy : 0 < y) by (eapply Qlt_le_trans; eassumption).
  pose proof (float64_exponent_mono x y Hx Hxy) as He.
  destruct (Z.eq_dec (float64_exponent x) (float64_exponent y)) as [Heq|Hne].
  - unfold float64_round_pos. rewrite <- Heq.
    apply Qmult_le_compat_r; [|apply Qlt_le_weak, pow2_pos].
    rewrite <- Zle_Qle. apply round_half_even_mono.
    apply Qmult_le_compat_r; [exact Hxy|].
    apply Qlt_le_weak, Qinv_lt_0_compat, pow2_pos.
  - set (ex := float64_exponent x) in *. set (ey := float64_exponent y) in *.
    assert (Hey : ey = (ilog2 y - 52)%Z) by (unfold ey, ex, float64_exponent in *; lia).
    assert (Hlx : (ilog2 x + 1 <= ilog2 y)%Z) by (unfold ey, ex, float64_exponent in *; lia).
    assert (Hex : (ex <= ilog2 y)%Z) by lia.
    destruct (ilog2_spec x Hx) as [_ Hxup]. destruct (ilog2_spec y Hy) as [Hylo _].
    set (B := pow2 (ilog2 y)) in *.
    assert (HxB : x <= B).
    { apply Qlt_le_weak. eapply Qlt_le_trans; [exact Hxup|]. now apply pow2_le. }
    assert (HB : B == inject_Z (2 ^ (ilog2 y - ex)) * pow2 ex).
    { unfold B. rewrite <- pow2_Z by lia. rewrite <- pow2_plus.
      now replace (ilog2 y - ex + ex)%Z with (ilog2 y) by lia. }
    assert (HB' : B == inject_Z (2 ^ 52) * pow2 ey).
    { unfold B. rewrite <- pow2_Z by lia. rewrite <- pow2_plus.
      now replace (52 + ey)%Z with (ilog2 y) by lia. }
    apply Qle_trans with B.
    + unfold float64_round_pos. fold ex. rewrite HB.
      apply Qmult_le_compat_r; [|apply Qlt_le_weak, pow2_pos].
      rewrite <- Zle_Qle. apply round_half_even_le_int.
      apply Qle_shift_div_r; [apply pow2_pos|]. now rewrite <- HB.
    + unfold float64_round_pos. fold ey. rewrite HB'.
      apply Qmult_le_compat_r; [|apply Qlt_le_weak, pow2_pos].
      rewrite <- Zle_Qle. apply round_half_even_ge_int.
      apply Qle_shift_div_l; [apply pow2_pos|]. now rewrite <- HB'.
Qed.

Lemma float64_round_positive (q : Q) : 0 < q -> float64_round q = float64_round_pos q.
Proof.
  intros Hq. unfold float64_round.
  assert (H : (q ?= 0) = Gt) by now apply Qgt_alt. now rewrite H.
Qed.

Lemma float64_round_zero (q : Q) : q == 0 -> float64_round q = 0.
Proof.
  intros Hq. unfold float64_round.
  assert (H : (q ?= 0) = Eq) by now apply Qeq_alt. now rewrite H.
Qed.

Lemma float64_round_nonneg (q : Q) : 0 <= q -> 0 <= float64_round q.
Proof.
  intros Hq. destruct (Qlt_le_dec 0 q) as [Hpos|Hle].
  - rewrite float64_round_positive by exact Hpos. now apply float64_round_pos_nonneg.
  - rewrite float64_round_zero; [apply Qle_refl|]. now apply Qle_antisym.
Qed.

Lemma float64_round_mono (x y : Q) :
  0 <= x -> x <= y -> float64_round x <= float64_round y.
Proof.
  intros Hx Hxy. destruct (Qlt_le_dec 0 x) as [Hpos|Hle].
  - rewrite !float64_round_positive;
      [now apply float64_round_pos_mono| |exact Hpos].
    eapply Qlt_le_trans; eassumption.
  - rewrite (float64_round_zero x) by now apply Qle_antisym.
    apply float64_round_nonneg. eapply Qle_trans; eassumption.
Qed.

Lemma round_half_even_int (y : Q) (K : Z) : y == inject_Z K -> round_half_even y = K.
Proof.
  intros H. apply Z.le_antisymm.
  - apply round_half_even_le_int. rewrite H. apply Qle_refl.
  - apply round_half_even_ge_int. rewrite H. apply Qle_refl.
Qed.

Lemma float64_exponent_below (x : Q) (k : Z) :
  0 < x -> x < pow2 k -> (-1021 <= k)%Z -> (float64_exponent x <= k - 53)%Z.
Proof.
  intros Hx Hk Hk'. pose proof (ilog2_lt x k Hx Hk). unfold float64_exponent. lia.
Qed.

Lemma float64_exponent_above (x : Q) (k : Z) :
  0 < x -> pow2 k <= x -> (k - 52 <= float64_exponent x)%Z.
Proof.
  intros Hx Hk. pose proof (ilog2_ge x k Hx Hk). unfold float64_exponent. lia.
Qed.

(** A whole number whose float64 exponent is not positive is a float64. *)
Lemma float64_round_pos_int (n : Z) :
  (float64_exponent (inject_Z n) <= 0)%Z ->
  float64_round_pos (inject_Z n) == inject_Z n.
Proof.
  intros He. unfold float64_round_pos.
  set (e := float64_exponent (inject_Z n)) in *.
  rewrite (round_half_even_int _ (n * 2 ^ (- e))) by (apply int_div_pow2; exact He).
  apply int_mul_pow2. exact He.
Qed.

Lemma inject_Z_pos (n : Z) : (0 < n)%Z -> 0 < inject_Z n.
Proof. intros H. change 0 with (inject_Z 0). now rewrite <- Zlt_Qlt. Qed.

(** The whole numbers up to [2 ^ 53] are float64 values. *)
Lemma float64_round_whole (n : Z) :
  (0 <= n <= 2 ^ 53)%Z -> float64_round (inject_Z n) == inject_Z n.
Proof.
  intros [H0 Hn].
  destruct (Z.eq_dec n 0%Z) as [->|Hnz]; [vm_compute; reflexivity|].
  destruct (Z.eq_dec n (2 ^ 53)%Z) as [->|Hne]; [vm_compute; reflexivity|].
  assert (Hpos : 0 < inject_Z n) by (apply inject_Z_pos; lia).
  rewrite float64_round_positive by exact Hpos.
  apply float64_round_pos_int.
  assert (H : (float64_exponent (inject_Z n) <= 53 - 53)%Z).
  { apply float64_exponent_below; [exact Hpos| |lia].
    rewrite pow2_Z by lia. rewrite <- Zlt_Qlt. lia. }
  lia.
Qed.

(** A float64 value is a multiple of the power of two of its exponent. *)
Lemma float64_grid (q : Q) :
  0 < q -> float64_round q == q ->
  q == inject_Z (round_half_even (q / pow2 (float64_exponent q)))
       * pow2 (float64_exponent q).
Proof.
  intros Hq Hr. rewrite float64_round_positive in Hr by exact Hq.
  symmetry. exact Hr.
Qed.

Lemma Qceiling_unique (y : Q) (K : Z) :
  inject_Z (K - 1) < y -> y <= inject_Z K -> Qceiling y = K.
Proof.
  intros Hlo Hhi.
  assert (H1 : (Qceiling y <= K)%Z).
  { rewrite <- (Qceiling_Z K). now apply Qceiling_resp_le. }
  assert (H2 : inject_Z (K - 1) < inject_Z (Qceiling y)).
  { eapply Qlt_le_trans; [exact Hlo|apply Qle_ceiling]. }
  rewrite <- Zlt_Qlt in H2. lia.
Qed.

(** The quotient of a whole number up to [2 ^ 53] by 2000, rounded to float64,
    stays on the same side of every integer as the exact quotient: the floats
    below [2 ^ 43] are [2 ^ -10] apart or closer, and a quotient that is not
    an integer is at least [1 / 2000] above the integer below it. *)
Lemma float64_div_whole (n : Z) :
  (0 < n <= 2 ^ 53)%Z ->
  inject_Z ((n + 1999) / 2000 - 1) < float64_div (inject_Z n) max_students_per_school /\
  float64_div (inject_Z n) max_students_per_school <= inject_Z ((n + 1999) / 2000).
Proof.
  intros [H0 Hn]. unfold float64_div, max_students_per_school.
  change (2 ^ 53)%Z with 9007199254740992%Z in Hn.
  set (K := ((n + 1999) / 2000)%Z).
  assert (HK : (2000 * (K - 1) < n <= 2000 * K)%Z).
  { subst K. Z.div_mod_to_equations. lia. }
  set (x := inject_Z n / 2000).
  assert (Hx : 0 < x).
  { unfold x. apply Qlt_shift_div_l; [reflexivity|]. rewrite Qmult_0_l.
    now apply inject_Z_pos. }
  assert (HxK : x <= inject_Z K).
  { unfold x. apply Qle_shift_div_r; [reflexivity|].
    change 2000 with (inject_Z 2000). rewrite <- inject_Z_mult, <- Zle_Qle. lia. }
  assert (He : (float64_exponent x <= 43 - 53)%Z).
  { apply float64_exponent_below; [exact Hx| |lia].
    rewrite pow2_Z by lia. unfold x. apply Qlt_shift_div_r; [reflexivity|].
    change 2000 with (inject_Z 2000). rewrite <- inject_Z_mult, <- Zlt_Qlt.
    change (2 ^ 43)%Z with 8796093022208%Z. lia. }
  rewrite float64_round_positive by exact Hx. split.
  - apply float64_round_pos_gt_int; [lia|].
    apply Qle_lt_trans with (inject_Z (K - 1) + (1 # 2048)).
    + apply Qplus_le_r.
      apply Qle_trans with ((1 # 2) * pow2 (-10)); [|vm_compute; discriminate].
      apply Qmult_le_l; [reflexivity|]. apply pow2_le. lia.
    + unfold x. apply Qlt_shift_div_l; [reflexivity|].
      apply Qlt_le_trans with (inject_Z (2000 * (K - 1) + 1)).
      * rewrite inject_Z_plus, inject_Z_mult, Qmult_plus_distr_l.
        rewrite (Qmult_comm (inject_Z (K - 1))). apply Qplus_lt_r. reflexivity.
      * rewrite <- Zle_Qle. lia.
  - apply float64_round_pos_le_int; [lia|exact HxK].
Qed.

(** A float64 value that does not exceed [2000 * (2 ^ 63 - 1)] does not exceed
    [2000 * (2 ^ 63 - 1024)]: between the two bounds the float64 values are
    the multiples of [2 ^ 21]. *)
Lemma float64_below_int64_bound (q : Q) :
  0 <= q -> float64_round q == q -> q <= 2000 * inject_Z INT64_MAX ->
  q <= 2000 * inject_Z (2 ^ 63 - 1024).
Proof.
  intros H0 Hr Hmax.
  destruct (Qlt_le_dec (2000 * inject_Z (2 ^ 63 - 1024)) q) as [Hbig|Hsmall];
    [exfalso|exact Hsmall].
  assert (Hq : 0 < q) by (eapply Qle_lt_trans; [|exact Hbig]; vm_compute; discriminate).
  assert (He : float64_exponent q = 21%Z).
  { assert (H1 : (73 - 52 <= float64_exponent q)%Z).
    { apply float64_exponent_above; [exact Hq|].
      apply Qlt_le_weak. eapply Qle_lt_trans; [|exact Hbig]. vm_compute. discriminate. }
    assert (H2 : (float64_exponent q <= 74 - 53)%Z).
    { apply float64_exponent_below; [exact Hq| |lia].
      eapply Qle_lt_trans; [exact Hmax|]. vm_compute. reflexivity. }
    lia. }
  pose proof (float64_grid q Hq Hr) as Hg. rewrite He in Hg.
  set (m := round_half_even (q / pow2 21)) in Hg.
  assert (Hm : q == inject_Z (m * 2097152)).
  { rewrite Hg, inject_Z_mult. apply Qmult_comp; [reflexivity|]. vm_compute. reflexivity. }
  rewrite Hm in Hbig, Hmax.
  change 2000 with (inject_Z 2000) in Hbig, Hmax.
  rewrite <- inject_Z_mult in Hbig, Hmax.
  rewrite <- Zlt_Qlt in Hbig. rewrite <- Zle_Qle in Hmax.
  unfold INT64_MAX in Hmax.
  change (2 ^ 63)%Z with 9223372036854775808%Z in Hbig, Hmax. lia.
Qed.

End Float64Facts.

(** ** Capacity arithmetic *)

Module CapacityFacts.
Import Capacity.

Lemma astype_int_in_range (z : Z) :
  INT64_MIN <= z <= INT64_MAX -> astype_int z = z.
Proof.
  intros [Hlo Hhi]. unfold astype_int.
  apply Z.leb_le in Hlo. apply Z.leb_le in Hhi.
  rewrite Hlo, Hhi. reflexivity.
Qed.

Lemma py_max_spec (a b : Z) : py_max a b = Z.max a b.
Proof.
  unfold py_max. destruct (Z.gtb_spec b a); lia.
Qed.

(** The exact ceiling of a whole number divided by 2000. *)
Lemma Qceiling_whole (n : Z) :
  Qceiling (inject_Z n / max_students_per_school) = (n + 1999) / 2000.
Proof.
  unfold max_students_per_school.
  assert (HK : 2000 * ((n + 1999) / 2000 - 1) < n <= 2000 * ((n + 1999) / 2000))
    by (Z.div_mod_to_equations; lia).
  apply Float64Facts.Qceiling_unique.
  - apply Qlt_shift_div_l; [reflexivity|].
    change 2000%Q with (inject_Z 2000). rewrite <- inject_Z_mult, <- Zlt_Qlt. lia.
  - apply Qle_shift_div_r; [reflexivity|].
    change 2000%Q with (inject_Z 2000). rewrite <- inject_Z_mult, <- Zle_Qle. lia.
Qed.

(** The count the code computes for a whole-number population up to
    [2 ^ 53]. *)
Lemma required_schools_whole (n : Z) :
  0 <= n <= 2 ^ 53 -> required_schools (inject_Z n) = (n + 1999) / 2000.
Proof.
  intros [H0 Hn].
  destruct (Z.eq_dec n 0) as [->|Hnz]; [vm_compute; reflexivity|].
  destruct (Float64Facts.float64_div_whole n) as [Hlo Hhi]; [lia|].
  unfold required_schools, np_ceil.
  rewrite (Float64Facts.Qceiling_unique _ _ Hlo Hhi).
  apply astype_int_in_range. unfold INT64_MIN, INT64_MAX.
  change (2 ^ 53) with 9007199254740992 in Hn.
  change (2 ^ 63) with 9223372036854775808.
  Z.div_mod_to_equations. lia.
Qed.

(** C4 (as stated, refuted).  The division of line 89 is a float64 division,
    and its rounding can cross an integer.  The smallest positive float64,
    [2 ^ -1074], is a positive population for which the code requires no
    school, where the ceiling of the quotient is 1; and for the float64
    population 9100000000000002048 the code requires 4550000000000001 schools,
    where the ceiling of the quotient is 4550000000000002. *)
Theorem required_schools_not_always_ceiling :
  ((0 < pow2 (-1074))%Q /\
   (float64_round (pow2 (-1074)) == pow2 (-1074))%Q /\
   required_schools (pow2 (-1074)) = 0 /\
   Qceiling (pow2 (-1074) / max_students_per_school) = 1) /\
  ((float64_round 9100000000000002048 == 9100000000000002048)%Q /\
   required_schools 9100000000000002048 = 4550000000000001 /\
   Qceiling (9100000000000002048 / max_students_per_school) = 4550000000000002 /\
   ~ (9100000000000002048
      <= inject_Z (required_schools 9100000000000002048) * max_students_per_school)%Q).
Proof.
  split.
  - split; [apply Float64Facts.pow2_pos|].
    split; [vm_compute; reflexivity|].
    split; vm_compute; reflexivity.
  - split; [vm_compute; reflexivity|].
    split; [vm_compute; reflexivity|].
    split; [vm_compute; reflexivity|].
    intros H. vm_compute in H. apply H. reflexivity.
Qed.

(** C4 (amended).  For a population that is a whole number [n] with
    [0 <= n <= 2 ^ 53] (every such number is a float64 value) the required
    count is the ceiling of [n / 2000]: it is the integer [r] with
    [(r - 1) * 2000 < n <= r * 2000], so any remainder rounds the requirement
    up; population 2001 requires 2 schools and population 1 requires 1. *)
Theorem required_schools_is_ceiling (n : Z) :
  0 <= n <= 2 ^ 53 ->
  (float64_round (inject_Z n) == inject_Z n)%Q /\
  required_schools (inject_Z n) = Qceiling (inject_Z n / max_students_per_school) /\
  (required_schools (inject_Z n) - 1) * 2000 < n <= required_schools (inject_Z n) * 2000 /\
  required_schools 2001 = 2 /\ required_schools 1 = 1.
Proof.
  intros Hn.
  split; [now apply Float64Facts.float64_round_whole|].
  rewrite (required_schools_whole n Hn), Qceiling_whole.
  split; [reflexivity|].
  split; [Z.div_mod_to_equations; lia|].
  split; vm_compute; reflexivity.
Qed.

(** The theorem at population 4500: three schools are required. *)
Lemma required_schools_is_ceiling_witness :
  (float64_round (inject_Z 4500) == inject_Z 4500)%Q /\
  required_schools (inject_Z 4500)
  = Qceiling (inject_Z 4500 / max_students_per_school) /\
  (required_schools (inject_Z 4500) - 1) * 2000 < 4500
    <= required_schools (inject_Z 4500) * 2000 /\
  required_schools 2001 = 2 /\ required_schools 1 = 1.
Proof.
  apply (required_schools_is_ceiling 4500). vm_compute. split; discriminate.
Defined.

Example required_schools_4500 : required_schools 4500 = 3.
Proof. vm_compute. reflexivity. Qed.

Example required_schools_exact_multiple : required_schools 4000 = 2.
Proof. vm_compute. reflexivity. Qed.

Example required_schools_zero : required_schools 0 = 0.
Proof. vm_compute. reflexivity. Qed.

(** A population that is not a whole number: 0.1, that is the float64
    [3602879701896397 / 2 ^ 55], requires one school. *)
Example required_schools_tenth :
  (float64_round (1 # 10) == 3602879701896397 # 36028797018963968)%Q /\
  required_schools (3602879701896397 # 36028797018963968) = 1.
Proof. split; vm_compute; reflexivity. Qed.

End CapacityFacts.

(** ** Join and tables *)

Module AnalyzerFacts.
Import Analyzer.

Section Tables.
Context {Geometry : Type}.
Variable within : Geometry -> Geometry -> bool.
Variable reproject : string -> string -> Geometry -> Geometry.

Local Abbreviation District := (District Geometry).
Local Abbreviation joined_row := (Geometry * option District)%type.

(** *** Dictionaries built from a key column and a value column *)

Lemma fold_insert_dom (kvs : list (string * Z)) (m : gmap string Z) :
  dom (fold_left (fun acc kv => <[fst kv := snd kv]> acc) kvs m)
  = dom m ∪ list_to_set (kvs.*1).
Proof.
  revert m. induction kvs as [|[k v] kvs IH]; intros m; simpl.
  - set_solver.
  - rewrite IH, dom_insert_L. set_solver.
Qed.

Lemma fold_insert_lookup (kvs : list (string * Z)) (m : gmap string Z) k v :
  fold_left (fun acc kv => <[fst kv := snd kv]> acc) kvs m !! k = Some v ->
  m !! k = Some v \/ (k, v) ∈ kvs.
Proof.
  revert m. induction kvs as [|[k' v'] kvs IH]; intros m; simpl.
  - auto.
  - intros H. apply IH in H as [H|H].
    + destruct (decide (k' = k)) as [->|Hne].
      * rewrite lookup_insert_eq in H. inversion H; subst. right. left.
      * rewrite lookup_insert_ne in H by done. auto.
    + right. now right.
Qed.

Lemma to_dict_dom (index : list string) (col : list Z) :
  length index = length col ->
  dom (to_dict index col) = list_to_set index.
Proof.
  intros Hlen. unfold to_dict. rewrite fold_insert_dom, dom_empty_L.
  rewrite fst_zip by lia. set_solver.
Qed.

Lemma to_dict_lookup (index : list string) (col : list Z) k v :
  to_dict index col !! k = Some v ->
  exists i, index !! i = Some k /\ col !! i = Some v.
Proof.
  unfold to_dict. intros H. apply fold_insert_lookup in H as [H|H].
  - rewrite lookup_empty in H. discriminate.
  - apply list_elem_of_lookup in H as [i H].
    apply lookup_zip_with_Some in H as (x & y & Heq & Hx & Hy).
    inversion Heq; subst. eauto.
Qed.

(** *** The frame after CRS normalisation keeps names and populations *)

Lemma common_crs_names schools_gdf cities_gdf :
  map DIST_NAME (rows (common_crs reproject schools_gdf cities_gdf))
  = map DIST_NAME (rows cities_gdf).
Proof.
  unfold common_crs. destruct (String.eqb _ _); [reflexivity|].
  simpl. rewrite map_map. reflexivity.
Qed.

(** *** Counting the rows of the join *)

Lemma groupby_size_lookup (name : string) (joined : list joined_row) :
  groupby_size joined !! name =
  match length (assigned_to name joined) with
  | O => None
  | S n => Some (Z.of_nat (S n))
  end.
Proof.
  induction joined as [|[s [d|]] joined IH]; simpl.
  - apply lookup_empty.
  - destruct (String.eqb_spec (DIST_NAME d) name) as [->|Hne]; simpl.
    + rewrite lookup_insert_eq, IH.
      destruct (length (assigned_to name joined)); simpl; f_equal; lia.
    + rewrite lookup_insert_ne by done. exact IH.
  - exact IH.
Qed.

Lemma total_count_bump (k : string) (m : gmap string Z) :
  total_count (<[k := default 0 (m !! k) + 1]> m) = total_count m + 1.
Proof.
  unfold total_count.
  assert (Hcomm : forall z1 z2 y : Z, z1 + (z2 + y) = z2 + (z1 + y))
    by (intros; lia).
  destruct (m !! k) as [v|] eqn:Hk; simpl.
  - rewrite <- (insert_delete_eq m k (v + 1)).
    rewrite map_fold_insert_L; [|intros; apply Hcomm|apply lookup_delete_eq].
    rewrite <- (insert_delete_id m k v Hk) at 2.
    rewrite map_fold_insert_L; [|intros; apply Hcomm|apply lookup_delete_eq].
    lia.
  - rewrite map_fold_insert_L; [|intros; apply Hcomm|exact Hk]. lia.
Qed.

Lemma total_count_groupby (joined : list joined_row) :
  total_count (groupby_size joined) + unassigned joined
  = Z.of_nat (length joined).
Proof.
  unfold unassigned.
  induction joined as [|[s [d|]] joined IH]; simpl.
  - reflexivity.
  - rewrite total_count_bump. lia.
  - simpl in IH. lia.
Qed.

Lemma sjoin_rows_single (cities : list District) (s : Geometry) :
  (length (matching within cities s) <= 1)%nat ->
  length (sjoin_rows within cities s) = 1%nat.
Proof.
  unfold sjoin_rows. destruct (matching within cities s) as [|d [|d' ms]]; simpl.
  - reflexivity.
  - reflexivity.
  - lia.
Qed.

Lemma sjoin_length_single (schools : list Geometry) (cities : list District) :
  (forall s, s ∈ schools -> (length (matching within cities s) <= 1)%nat) ->
  length (sjoin within schools cities) = length schools.
Proof.
  unfold sjoin. induction schools as [|s schools IH]; intros H; simpl.
  - reflexivity.
  - rewrite length_app, sjoin_rows_single, IH.
    + reflexivity.
    + intros s' Hs'. apply H. now right.
    + apply H. left.
Qed.


Lemma required_col_length (cities : list District) :
  length (required_col cities) = length cities.
Proof. unfold required_col. apply length_map. Qed.

Lemma required_col_lookup (cities : list District) i v :
  required_col cities !! i = Some v ->
  exists d, cities !! i = Some d /\ v = Capacity.required_schools (TOTAL_POP d).
Proof.
  unfold required_col. rewrite list_lookup_fmap.
  destruct (cities !! i) as [d|]; [|discriminate].
  simpl. intros Hv. inversion Hv. eauto.
Qed.

Lemma additional_col_length (m : gmap string Z) (cities : list District) :
  length (additional_col (required_col cities) (current_col m cities))
  = length cities.
Proof.
  unfold additional_col, required_col, current_col.
  rewrite length_map, length_zip_with, !length_map. lia.
Qed.

Lemma additional_col_lookup (m : gmap string Z) (cities : list District) i v :
  additional_col (required_col cities) (current_col m cities) !! i = Some v ->
  exists d, cities !! i = Some d /\
    v = Capacity.additional_schools_needed
          (Capacity.required_schools (TOTAL_POP d))
          (default 0 (m !! DIST_NAME d)).
Proof.
  unfold additional_col, required_col, current_col. intros H.
  rewrite list_lookup_fmap in H.
  destruct (zip_with Z.sub _ _ !! i) as [x|] eqn:Hx; [|discriminate].
  apply lookup_zip_with_Some in Hx as (r & c & -> & Hr & Hc).
  rewrite list_lookup_fmap in Hr, Hc.
  destruct (cities !! i) as [d|]; [|discriminate].
  simpl in *. inversion Hr; inversion Hc; subst.
  exists d. split; [reflexivity|]. inversion H. reflexivity.
Qed.

(** Every value of the required-schools map is the required count of a
    district of that name. *)
Lemma required_map_values
    (schools_gdf : GeoDataFrame Geometry) (cities_gdf : GeoDataFrame District)
    (name : string) (v : Z) :
  res_required_schools (analysis within reproject schools_gdf cities_gdf) !! name
  = Some v ->
  exists d, d ∈ rows (common_crs reproject schools_gdf cities_gdf) /\
    DIST_NAME d = name /\ v = Capacity.required_schools (TOTAL_POP d).
Proof.
  simpl. intros Hv. apply to_dict_lookup in Hv as (i & Hname & Hval).
  apply required_col_lookup in Hval as (d & Hd & ->).
  rewrite list_lookup_fmap, Hd in Hname. simpl in Hname. inversion Hname.
  exists d. split; [eapply list_elem_of_lookup_2; exact Hd|]. auto.
Qed.

(** C7. The required-schools map and the additional-schools map are keyed by
    exactly the district names of the input district collection, and a name
    occurs once among the keys of each, whatever the populations and the
    schools are. *)
Theorem output_maps_keyed_by_input_districts
    (schools_gdf : GeoDataFrame Geometry) (cities_gdf : GeoDataFrame District) :
  let r := analysis within reproject schools_gdf cities_gdf in
  dom (res_required_schools r) = list_to_set (map DIST_NAME (rows cities_gdf)) /\
  dom (res_additional_schools_needed r) = list_to_set (map DIST_NAME (rows cities_gdf)) /\
  NoDup (map fst (map_to_list (res_required_schools r))) /\
  NoDup (map fst (map_to_list (res_additional_schools_needed r))).
Proof.
  simpl. repeat split.
  - rewrite to_dict_dom by (rewrite required_col_length; apply length_map).
    now rewrite common_crs_names.
  - rewrite to_dict_dom by (rewrite additional_col_length; apply length_map).
    now rewrite common_crs_names.
  - apply NoDup_fst_map_to_list.
  - apply NoDup_fst_map_to_list.
Qed.

(** C6, as the code has it.  The per-district count table holds a name exactly
    when some row of the join carries it, that is when some school is within a
    polygon of that name, and every count it holds is positive: a district with
    no school is absent from the table, it is not entered with count 0. *)
Theorem schools_per_city_holds_joined_names
    (schools_gdf : GeoDataFrame Geometry) (cities_gdf : GeoDataFrame District)
    (name : string) :
  let r := analysis within reproject schools_gdf cities_gdf in
  let cities := rows (common_crs reproject schools_gdf cities_gdf) in
  (name ∈ dom (res_schools_per_city r) <->
   exists s d, s ∈ rows schools_gdf /\ d ∈ cities /\
               within s (geometry d) = true /\ DIST_NAME d = name) /\
  (forall n, res_schools_per_city r !! name = Some n -> 0 < n) /\
  ((forall s d, s ∈ rows schools_gdf -> d ∈ cities -> DIST_NAME d = name ->
                within s (geometry d) = false) ->
   res_schools_per_city r !! name = None).
Proof.
  intros r cities. subst r. simpl. fold cities.
  set (joined := sjoin within (rows schools_gdf) cities).
  assert (Hrows : (exists row, row ∈ assigned_to name joined) <->
                  exists s d, s ∈ rows schools_gdf /\ d ∈ cities /\
                              within s (geometry d) = true /\ DIST_NAME d = name).
  { split.
    - intros [[s od] Hrow]. apply list_elem_of_In, filter_In in Hrow as [Hin Hd].
      simpl in Hd. destruct od as [d|]; [|discriminate].
      apply String.eqb_eq in Hd.
      apply in_flat_map in Hin as (s' & Hs' & Hin).
      unfold sjoin_rows in Hin.
      destruct (matching within cities s') as [|d0 ms] eqn:Hm.
      + destruct Hin as [Hin|[]]. discriminate.
      + apply in_map_iff in Hin as (d' & Heq & Hd'). inversion Heq; subst.
        rewrite <- Hm in Hd'. apply filter_In in Hd' as [Hd' Hw].
        exists s, d. rewrite !list_elem_of_In. auto.
    - intros (s & d & Hs & Hd & Hw & Hn).
      exists (s, Some d). apply list_elem_of_In, filter_In. split.
      + apply in_flat_map. exists s. split; [now apply list_elem_of_In|].
        assert (Hin : In d (matching within cities s)).
        { apply filter_In. split; [now apply list_elem_of_In|exact Hw]. }
        unfold sjoin_rows. destruct (matching within cities s) as [|d0 ms].
        * destruct Hin.
        * apply in_map_iff. eauto.
      + simpl. now apply String.eqb_eq. }
  pose proof (groupby_size_lookup name joined) as Hlook.
  split; [|split].
  - rewrite elem_of_dom, <- Hrows, Hlook.
    destruct (assigned_to name joined) as [|row l]; simpl.
    + split; [intros [x Hx]; discriminate|intros [row Hrow]; inversion Hrow].
    + split; [intros _; exists row; left|intros _; eexists; reflexivity].
  - intros n. rewrite Hlook.
    destruct (length (assigned_to name joined)); [discriminate|].
    intros Hn. inversion Hn. lia.
  - intros Hnone. rewrite Hlook.
    destruct (assigned_to name joined) as [|row l] eqn:Ha; [reflexivity|].
    exfalso. destruct Hrows as [Hex _].
    destruct Hex as (s & d & Hs & Hd & Hw & Hn); [exists row; left|].
    rewrite (Hnone s d Hs Hd Hn) in Hw. discriminate.
Qed.

(** C5, as the code has it.  For every school table and district table: a
    school within exactly one polygon yields one row of the join, with that
    district; a school within no polygon yields one row without a district;
    and, when no school is within more than one polygon, the per-district
    counts and the number of rows without a district add up to the total number
    of schools. *)
Theorem containment_counts_add_up
    (schools_gdf : GeoDataFrame Geometry) (cities_gdf : GeoDataFrame District) :
  let r := analysis within reproject schools_gdf cities_gdf in
  let cities := rows (common_crs reproject schools_gdf cities_gdf) in
  let joined := sjoin within (rows schools_gdf) cities in
  (forall s d, s ∈ rows schools_gdf -> matching within cities s = [d] ->
               sjoin_rows within cities s = [(s, Some d)] /\
               (s, Some d) ∈ joined) /\
  (forall s, s ∈ rows schools_gdf -> matching within cities s = [] ->
             sjoin_rows within cities s = [(s, None)] /\
             (s, None) ∈ joined) /\
  ((forall s, s ∈ rows schools_gdf ->
              (length (matching within cities s) <= 1)%nat) ->
   total_count (res_schools_per_city r) + unassigned joined = res_total_schools r).
Proof.
  intros r cities joined. subst r. simpl. fold cities. fold joined.
  assert (Hin : forall s row, s ∈ rows schools_gdf ->
                  sjoin_rows within cities s = [row] -> row ∈ joined).
  { intros s row Hs Hrow. apply list_elem_of_In, in_flat_map.
    exists s. split; [now apply list_elem_of_In|]. rewrite Hrow. now left. }
  split; [|split].
  - intros s d Hs Hm.
    assert (Hrow : sjoin_rows within cities s = [(s, Some d)])
      by (unfold sjoin_rows; now rewrite Hm).
    split; [exact Hrow|]. exact (Hin s _ Hs Hrow).
  - intros s Hs Hm.
    assert (Hrow : sjoin_rows within cities s = [(s, None)])
      by (unfold sjoin_rows; now rewrite Hm).
    split; [exact Hrow|]. exact (Hin s _ Hs Hrow).
  - intros Hone. unfold joined. rewrite total_count_groupby.
    now rewrite sjoin_length_single.
Qed.

(** The column [additional_schools_needed] of lines 93-94, entry by entry. *)
Lemma additional_col_zip (required current : list Z) :
  additional_col required current
  = zip_with (fun r c => Z.max (r - c) 0) required current.
Proof.
  unfold additional_col. revert current.
  induction required as [|r required IH]; intros [|c current]; simpl;
    try reflexivity.
  rewrite CapacityFacts.py_max_spec. f_equal. apply IH.
Qed.


End Tables.
End AnalyzerFacts.

(** ** The tables on concrete layers *)

Module GridFacts.
Import Analyzer Grid.

Example separate_districts_result :
  let r := analysis within reproject two_schools separate_districts in
  res_total_schools r = 2 /\
  res_schools_per_city r = {[ "A" := 1 ]} /\
  res_required_schools r !! "A" = Some 2 /\
  res_required_schools r !! "C" = Some 3 /\
  res_additional_schools_needed r !! "A" = Some 1 /\
  res_additional_schools_needed r !! "C" = Some 3.
Proof. vm_compute. repeat split. Qed.

(** C5 as stated fails.  One school within two nested district polygons is
    counted once for each: the per-district counts add up to 2, no row is
    unassigned, and the total number of schools is 1. *)
Lemma containment_counts_exceed_total :
  let r := analysis within reproject one_school nested_districts in
  let joined := sjoin within (rows one_school) (rows nested_districts) in
  res_schools_per_city r !! "A" = Some 1 /\
  res_schools_per_city r !! "B" = Some 1 /\
  unassigned joined = 0 /\
  res_total_schools r = 1 /\
  total_count (res_schools_per_city r) + unassigned joined <> res_total_schools r.
Proof. vm_compute. repeat split. discriminate. Qed.

(** The counts add up on two schools and two separate districts, no school
    being within more than one of them. *)
Lemma containment_counts_add_up_witness :
  let r := analysis within reproject two_schools separate_districts in
  let joined := sjoin within (rows two_schools) (rows separate_districts) in
  total_count (res_schools_per_city r) + unassigned joined = res_total_schools r.
Proof.
  refine (proj2 (proj2 (AnalyzerFacts.containment_counts_add_up
                          within reproject two_schools separate_districts)) _).
  intros s Hs. apply list_elem_of_In in Hs. simpl in Hs.
  destruct Hs as [<-|[<-|[]]]; vm_compute; lia.
Defined.

(** C6 as stated fails.  District C is in the input district collection and no
    school lies in it: the per-district count table has no entry for C, where
    the claim wants an entry with count 0. *)
Lemma district_without_school_is_absent :
  let r := analysis within reproject two_schools separate_districts in
  "C" ∈ map DIST_NAME (rows separate_districts) /\
  res_schools_per_city r !! "C" = None /\
  res_schools_per_city r !! "C" <> Some 0.
Proof.
  split; [|split].
  - right. left.
  - vm_compute. reflexivity.
  - vm_compute. discriminate.
Qed.

(** District C of the example, which holds no school, has no entry. *)
Lemma schools_per_city_holds_joined_names_witness :
  res_schools_per_city (analysis within reproject two_schools separate_districts)
    !! "C" = None.
Proof.
  refine (proj2 (proj2 (AnalyzerFacts.schools_per_city_holds_joined_names
                          within reproject two_schools separate_districts "C")) _).
  intros s d Hs Hd Hn.
  apply list_elem_of_In in Hs, Hd. simpl in Hs, Hd.
  destruct Hd as [<-|[<-|[]]]; [discriminate Hn|].
  destruct Hs as [<-|[<-|[]]]; reflexivity.
Defined.


End GridFacts.

(** ** Loading and frame updates *)

Module SessionFacts.
Import Analyzer Session.

Section RunFacts.
Context {Geometry : Type}.
Variable within : Geometry -> Geometry -> bool.
Variable reproject : string -> string -> Geometry -> Geometry.

Local Abbreviation Source := (@Source Geometry).
Local Abbreviation Frame := (@Frame Geometry).
Local Abbreviation Env := (@Env Geometry).

(** The primitives on an environment whose frame list is split into the frames
    that existed before the run ([old]) and those allocated by it ([new]). *)

Lemma get_frame_new (S : gmap string Source) (old new : list Frame) (i : nat) :
  get_frame (length old + i) (mkEnv S (old ++ new)) =
  match new !! i with
  | Some f => (inr f, mkEnv S (old ++ new))
  | None => (inl KeyError, mkEnv S (old ++ new))
  end.
Proof.
  unfold get_frame. simpl. rewrite lookup_app_r by lia.
  replace (length old + i - length old)%nat with i by lia. reflexivity.
Qed.

Lemma put_frame_new (S : gmap string Source) (old new : list Frame) (i : nat) f :
  put_frame (length old + i) f (mkEnv S (old ++ new)) =
  (inr tt, mkEnv S (old ++ <[i := f]> new)).
Proof.
  unfold put_frame. simpl. now rewrite insert_app_r.
Qed.

Lemma new_frame_new (S : gmap string Source) (old new : list Frame) f :
  new_frame f (mkEnv S (old ++ new)) =
  (inr (length old + length new)%nat, mkEnv S (old ++ (new ++ [f]))).
Proof.
  unfold new_frame. simpl. now rewrite length_app, app_assoc.
Qed.

Lemma astype_float_id (gdf : GeoDataFrame (District Geometry)) :
  astype_float gdf = gdf.
Proof.
  destruct gdf as [c rs]. unfold astype_float. simpl. f_equal.
  induction rs as [|[n p g] rs IH]; simpl; [reflexivity|]. now rewrite IH.
Qed.

#[local] Arguments new_frame : simpl never.
#[local] Arguments get_frame : simpl never.
#[local] Arguments put_frame : simpl never.
#[local] Arguments astype_float : simpl never.
#[local] Arguments to_crs : simpl never.
#[local] Arguments to_dict : simpl never.
#[local] Arguments required_col : simpl never.
#[local] Arguments current_col : simpl never.
#[local] Arguments groupby_size : simpl never.
#[local] Arguments sjoin : simpl never.

Ltac run_step :=
  first [ rewrite get_frame_new
        | rewrite put_frame_new
        | rewrite new_frame_new ]; cbn.

(** A run returns [expected_outcome] of the two sources, leaves the sources as
    they are, and only appends frames to the frame list; the first frame it
    appends is the school table as loaded, which it never updates. *)
Lemma analyze_run (S : gmap string Source) (old : list Frame)
    (school_layer cities_layer : string) :
  exists new,
    analyze_school_distribution within reproject school_layer cities_layer
      (mkEnv S old)
    = (expected_outcome within reproject (S !! school_layer) (S !! cities_layer),
       mkEnv S (old ++ new)) /\
    (forall sg, S !! school_layer = Some (SchoolSource sg) ->
                new !! 0%nat = Some (SchoolFrame sg)).
Proof.
  cut (exists new,
    analyze_school_distribution within reproject school_layer cities_layer
      (mkEnv S (old ++ []))
    = (expected_outcome within reproject (S !! school_layer) (S !! cities_layer),
       mkEnv S (old ++ new)) /\
    (forall sg, Some (SchoolSource sg) = S !! school_layer ->
                new !! 0%nat = Some (SchoolFrame sg))).
  { rewrite app_nil_r. intros (new & Hrun & Hsg). exists new. split; [exact Hrun|].
    intros sg Hs. now apply Hsg. }
  unfold analyze_school_distribution, expected_outcome, with_cities, bind,
    layer_to_geopandas, column, ret, raise.
  cbn.
  destruct (S !! school_layer) as [[sg|sg]|] eqn:Hs;
    destruct (S !! cities_layer) as [[cg|cg]|] eqn:Hc;
    repeat (first [run_step | rewrite Hc; cbn | rewrite Hs; cbn]);
    try (eexists; split; [reflexivity|intros sg' Hsg'; now inversion Hsg']).
  unfold analysis, common_crs.
  destruct (String.eqb (crs sg) (crs cg)); repeat run_step;
    rewrite ?astype_float_id;
    (eexists; split; [reflexivity|intros sg' Hsg'; now inversion Hsg']).
Qed.

(** C10. A run of the analysis leaves every layer source as it was, school
    layer and district layer alike, and leaves every frame that existed before
    the run as it was: the columns are assigned in frames the run itself
    allocates, and the school frame it loads is still the school table as
    loaded when the run ends.  Running the analysis again on the resulting
    state returns the same result. *)
Theorem analysis_preserves_inputs (env : Env) (school_layer cities_layer : string) :
  let out :=
    analyze_school_distribution within reproject school_layer cities_layer env in
  sources (snd out) = sources env /\
  (forall ref f, frames env !! ref = Some f -> frames (snd out) !! ref = Some f) /\
  (forall schools_gdf,
     sources env !! school_layer = Some (SchoolSource schools_gdf) ->
     frames (snd out) !! length (frames env) = Some (SchoolFrame schools_gdf)) /\
  fst (analyze_school_distribution within reproject school_layer cities_layer
         (snd out)) = fst out.
Proof.
  destruct env as [S old].
  destruct (analyze_run S old school_layer cities_layer) as (new & Hrun & Hschool).
  cbv zeta. rewrite Hrun. cbn [fst snd sources frames].
  split; [reflexivity|split; [|split]].
  - intros ref f Hf. now apply lookup_app_l_Some.
  - intros sg Hsg. rewrite lookup_app_r by lia.
    rewrite Nat.sub_diag. now apply Hschool.
  - destruct (analyze_run S (old ++ new) school_layer cities_layer)
      as (new' & Hrun' & _).
    rewrite Hrun'. reflexivity.
Qed.

End RunFacts.

(** *** A run on the grid project *)

Example grid_project_run :
  fst (analyze_school_distribution Grid.within Grid.reproject
         "schools.shp" "districts.shp" grid_project)
  = inr (analysis Grid.within Grid.reproject Grid.two_schools Grid.separate_districts).
Proof.
  destruct (analyze_run Grid.within Grid.reproject (sources grid_project) []
              "schools.shp" "districts.shp") as (new & Hrun & _).
  change (mkEnv (sources grid_project) []) with grid_project in Hrun.
  rewrite Hrun. reflexivity.
Qed.

Example grid_project_missing_layer :
  fst (analyze_school_distribution Grid.within Grid.reproject
         "schools.shp" "nowhere.shp" grid_project)
  = inl DataSourceError.
Proof.
  destruct (analyze_run Grid.within Grid.reproject (sources grid_project) []
              "schools.shp" "nowhere.shp") as (new & Hrun & _).
  change (mkEnv (sources grid_project) []) with grid_project in Hrun.
  rewrite Hrun. reflexivity.
Qed.

(** The sources of the grid project after a run. *)
Lemma analysis_preserves_inputs_witness :
  sources (snd (analyze_school_distribution Grid.within Grid.reproject
                  "schools.shp" "districts.shp" grid_project))
  = sources grid_project.
Proof.
  exact (proj1 (analysis_preserves_inputs Grid.within Grid.reproject
                  grid_project "schools.shp" "districts.shp")).
Defined.

End SessionFacts.

(** ** Spatial statistics *)

Module SpatialFacts.
Import Spatial.

Local Open Scope R_scope.

(** *** Distances, means, minima *)

Lemma distance_eq (a b : coord) (d : R) :
  0 <= d ->
  (fst a - fst b) * (fst a - fst b) + (snd a - snd b) * (snd a - snd b) = d * d ->
  distance a b = d.
Proof.
  intros Hd Hsq. unfold distance. apply sqrt_lem_1.
  - simpl. nra.
  - exact Hd.
  - simpl. lra.
Qed.

Lemma distance_self (a : coord) : distance a a = 0.
Proof. apply distance_eq; lra. Qed.

Lemma mean_singleton (x : R) : mean [x] = x.
Proof. unfold mean, Rsum. simpl. field. Qed.

Lemma mean_pair (x y : R) : mean [x; y] = (x + y) / 2.
Proof. unfold mean, Rsum. simpl. field. Qed.

Lemma std_spec (l : list R) : std l = population_std l.
Proof.
  unfold std, population_std. f_equal.
  set (m := mean l). unfold mean. rewrite length_map. do 2 f_equal.
  apply map_ext. intros x. rewrite pow2_abs. ring.
Qed.

(** *** The ridge filter *)

(** Every entry of [ridge_points] of a diagram built by scipy is the index of
    an input point; on such a diagram the filter of line 50 keeps every ridge. *)
Lemma ridge_filter_keeps_all (coords : list coord) (vor : Voronoi_diagram) :
  Forall (fun ridge => ridge_in_range (length coords) ridge = true) (ridge_points vor) ->
  ridge_lengths coords vor =
  map (fun ridge => distance (at_index coords (fst ridge)) (at_index coords (snd ridge)))
      (ridge_points vor).
Proof.
  intros Hall. unfold ridge_lengths. f_equal.
  induction Hall as [|ridge l Hr _ IH]; simpl.
  - reflexivity.
  - rewrite Hr, IH. reflexivity.
Qed.

Ltac rectangle_points :=
  change (at_index rectangle_coords 0) with ((0, 0) : coord);
  change (at_index rectangle_coords 1) with ((3, 4) : coord);
  change (at_index rectangle_coords 2) with ((3, -4) : coord);
  change (at_index rectangle_coords 3) with ((-3, 4) : coord);
  change (at_index rectangle_coords 4) with ((-3, -4) : coord).

Ltac by_distance := apply distance_eq; simpl; lra.

Lemma rectangle_ridge_lengths :
  ridge_lengths rectangle_coords rectangle_diagram = [5; 5; 5; 5; 8; 6; 8; 6].
Proof.
  rewrite ridge_filter_keeps_all by (repeat constructor).
  cbn [ridge_points rectangle_diagram map fst snd]. rectangle_points.
  repeat (apply f_equal2; [by_distance|]). reflexivity.
Qed.

Lemma rectangle_finite_ridge_lengths :
  finite_ridge_lengths rectangle_coords rectangle_diagram = [5; 5; 5; 5].
Proof.
  unfold finite_ridge_lengths.
  change (List.filter _ _) with
    [((0, 1), [0; 1]); ((0, 2), [0; 3]); ((0, 3), [1; 2]); ((0, 4), [2; 3])]%Z.
  cbn [map fst snd]. rectangle_points.
  repeat (apply f_equal2; [by_distance|]). reflexivity.
Qed.

Ltac eval_min_max :=
  repeat match goal with
    | |- context [Rmin (IZR ?a) (IZR ?b)] =>
        first [ rewrite (Rmin_left (IZR a) (IZR b)) by lra
              | rewrite (Rmin_right (IZR a) (IZR b)) by lra ]
    | |- context [Rmax (IZR ?a) (IZR ?b)] =>
        first [ rewrite (Rmax_left (IZR a) (IZR b)) by lra
              | rewrite (Rmax_right (IZR a) (IZR b)) by lra ]
    end.

(** C2 fails on the code.  On the four corners of a rectangle and its centre,
    with the Voronoi diagram of these points, the statistics are taken over all
    eight ridges, the four ridges that extend to infinity included: mean 6,
    minimum 5, maximum 8.  Over the four bounded ridges alone, as the claim
    has it, all three would be 5. *)
Theorem unbounded_ridges_are_counted :
  calculate_nearest_neighbor_distance (fun _ => inr rectangle_diagram) rectangle_coords
  = inr (mkNNStats (Finite 6) 5 8) /\
  ridge_lengths rectangle_coords rectangle_diagram = [5; 5; 5; 5; 8; 6; 8; 6] /\
  finite_ridge_lengths rectangle_coords rectangle_diagram = [5; 5; 5; 5] /\
  np_mean [5; 5; 5; 5] = Finite 5 /\
  np_min [5; 5; 5; 5] = inr 5 /\
  np_max [5; 5; 5; 5] = inr 5.
Proof.
  split; [|split; [|split; [|split; [|split]]]].
  - unfold calculate_nearest_neighbor_distance.
    rewrite rectangle_ridge_lengths.
    assert (Hmean : mean [5; 5; 5; 5; 8; 6; 8; 6] = 6)
      by (unfold mean, Rsum; simpl; lra).
    unfold np_mean, np_min, np_max. rewrite Hmean.
    cbn [fold_left]. eval_min_max. reflexivity.
  - exact rectangle_ridge_lengths.
  - exact rectangle_finite_ridge_lengths.
  - unfold np_mean. f_equal. unfold mean, Rsum. simpl. lra.
  - unfold np_min. cbn [fold_left]. eval_min_max. reflexivity.
  - unfold np_max. cbn [fold_left]. eval_min_max. reflexivity.
Qed.

(** *** Outcomes of the nearest-neighbour statistics *)

Lemma fold_min_lower (l : list R) (x : R) :
  fold_left Rmin l x <= x /\ forall y, In y l -> fold_left Rmin l x <= y.
Proof.
  revert x. induction l as [|z l IH]; intros x; simpl.
  - split; [lra|intros y []].
  - destruct (IH (Rmin x z)) as [Hx Hl].
    pose proof (Rmin_l x z). pose proof (Rmin_r x z).
    split; [lra|]. intros y [<-|Hy]; [lra|now apply Hl].
Qed.

Lemma fold_max_upper (l : list R) (x : R) :
  x <= fold_left Rmax l x /\ forall y, In y l -> y <= fold_left Rmax l x.
Proof.
  revert x. induction l as [|z l IH]; intros x; simpl.
  - split; [lra|intros y []].
  - destruct (IH (Rmax x z)) as [Hx Hl].
    pose proof (Rmax_l x z). pose proof (Rmax_r x z).
    split; [lra|]. intros y [<-|Hy]; [lra|now apply Hl].
Qed.

Lemma fold_min_attained (l : list R) (x : R) : In (fold_left Rmin l x) (x :: l).
Proof.
  revert x. induction l as [|z l IH]; intros x; simpl.
  - now left.
  - destruct (IH (Rmin x z)) as [Heq|Hin]; [|right; now right].
    unfold Rmin in Heq at 1. rewrite <- Heq.
    destruct (Rle_dec x z); [now left|right; now left].
Qed.

Lemma fold_max_attained (l : list R) (x : R) : In (fold_left Rmax l x) (x :: l).
Proof.
  revert x. induction l as [|z l IH]; intros x; simpl.
  - now left.
  - destruct (IH (Rmax x z)) as [Heq|Hin]; [|right; now right].
    unfold Rmax in Heq at 1. rewrite <- Heq.
    destruct (Rle_dec x z); [right; now left|now left].
Qed.

(** What [np.min] and [np.max] return: a member of the list that bounds it. *)
Lemma np_min_spec (l : list R) (m : R) :
  np_min l = inr m <-> In m l /\ forall y, In y l -> m <= y.
Proof.
  destruct l as [|x l]; simpl.
  - split; [discriminate|intros [[] _]].
  - split.
    + intros H. inversion H; subst m. split; [apply fold_min_attained|].
      destruct (fold_min_lower l x) as [Hx Hl].
      intros y [<-|Hy]; [exact Hx|now apply Hl].
    + intros [Hin Hlow]. f_equal. apply Rle_antisym.
      * destruct (fold_min_lower l x) as [Hx Hl].
        destruct Hin as [<-|Hin]; [exact Hx|now apply Hl].
      * apply Hlow. apply fold_min_attained.
Qed.

Lemma np_max_spec (l : list R) (m : R) :
  np_max l = inr m <-> In m l /\ forall y, In y l -> y <= m.
Proof.
  destruct l as [|x l]; simpl.
  - split; [discriminate|intros [[] _]].
  - split.
    + intros H. inversion H; subst m. split; [apply fold_max_attained|].
      destruct (fold_max_upper l x) as [Hx Hl].
      intros y [<-|Hy]; [exact Hx|now apply Hl].
    + intros [Hin Hup]. f_equal. apply Rle_antisym.
      * apply Hup. apply fold_max_attained.
      * destruct (fold_max_upper l x) as [Hx Hl].
        destruct Hin as [<-|Hin]; [exact Hx|now apply Hl].
Qed.

Section ProximityFacts.
Variable Voronoi : list coord -> PyExc + Voronoi_diagram.

(** C3, as the code has it.  The module never raises [InsufficientDataError].
    When the construction of the diagram raises, that exception propagates
    unchanged; when the list of ridge distances is empty the mean is
    not-a-number and the minimum raises [ValueError]; otherwise the three
    statistics are returned: the mean of the distances, and as minimum and
    maximum the results of [np.min] and [np.max], which are the least and the
    greatest of the distances. *)
Theorem nearest_neighbor_outcomes (geometry_series : list coord) :
  (forall c e, Voronoi c = inl e -> e = QhullError \/ e = ValueError) ->
  (forall e, Voronoi geometry_series = inl e ->
     calculate_nearest_neighbor_distance Voronoi geometry_series = inl e) /\
  (forall vor, Voronoi geometry_series = inr vor ->
     ridge_lengths geometry_series vor = [] ->
     np_mean (ridge_lengths geometry_series vor) = NaN /\
     calculate_nearest_neighbor_distance Voronoi geometry_series = inl ValueError) /\
  (forall vor, Voronoi geometry_series = inr vor ->
     ridge_lengths geometry_series vor <> [] ->
     exists lo hi,
       calculate_nearest_neighbor_distance Voronoi geometry_series
       = inr (mkNNStats (Finite (mean (ridge_lengths geometry_series vor))) lo hi) /\
       np_min (ridge_lengths geometry_series vor) = inr lo /\
       np_max (ridge_lengths geometry_series vor) = inr hi /\
       In lo (ridge_lengths geometry_series vor) /\
       (forall y, In y (ridge_lengths geometry_series vor) -> lo <= y) /\
       In hi (ridge_lengths geometry_series vor) /\
       (forall y, In y (ridge_lengths geometry_series vor) -> y <= hi)) /\
  calculate_nearest_neighbor_distance Voronoi geometry_series
  <> inl InsufficientDataError.
Proof.
  intros Hqhull. unfold calculate_nearest_neighbor_distance.
  destruct (Voronoi geometry_series) as [e|vor] eqn:Hv.
  - split; [|split; [|split]].
    + intros e' He'. inversion He'. reflexivity.
    + intros vor Hvor. discriminate.
    + intros vor Hvor. discriminate.
    + intros Habs. inversion Habs; subst e.
      destruct (Hqhull _ _ Hv); discriminate.
  - split; [|split; [|split]].
    + intros e He. discriminate.
    + intros vor' Hvor Hnil. inversion Hvor; subst vor'.
      rewrite Hnil. split; reflexivity.
    + intros vor' Hvor Hne. inversion Hvor; subst vor'.
      set (l := ridge_lengths geometry_series vor) in *.
      destruct (np_min l) as [e|lo] eqn:Hmin;
        [destruct l; [congruence|discriminate]|].
      destruct (np_max l) as [e|hi] eqn:Hmax;
        [destruct l; [congruence|discriminate]|].
      exists lo, hi.
      apply np_min_spec in Hmin as [Hlo_in Hlo].
      apply np_max_spec in Hmax as [Hhi_in Hhi].
      split; [destruct l; [congruence|reflexivity]|].
      repeat split; assumption.
    + destruct (ridge_lengths geometry_series vor) as [|x l]; simpl; discriminate.
Qed.

End ProximityFacts.

(** C3 as stated fails.  With two points, fewer than four, the construction of
    the diagram raises [QhullError], and the module fails with that exception,
    not with [InsufficientDataError]. *)
Lemma no_insufficient_data_error :
  calculate_nearest_neighbor_distance (fun _ => inl QhullError) [(0, 0); (1, 1)]
  = inl QhullError /\
  calculate_nearest_neighbor_distance (fun _ => inl QhullError) [(0, 0); (1, 1)]
  <> inl InsufficientDataError.
Proof. split; [reflexivity|discriminate]. Qed.

(** Two points, for which Qhull raises. *)
Lemma nearest_neighbor_outcomes_witness :
  calculate_nearest_neighbor_distance (fun _ => inl QhullError) [(0, 0); (1, 1)]
  <> inl InsufficientDataError.
Proof.
  refine (proj2 (proj2 (proj2
    (nearest_neighbor_outcomes (fun _ => inl QhullError) [(0, 0); (1, 1)] _)))).
  intros c e He. left. congruence.
Defined.

End SpatialFacts.

(** ** Coverage and dispersion *)

Module CoverageFacts.
Import Spatial.

Local Open Scope R_scope.

(** The divisor of the percentage is the product of the four bounds: for
    facilities at (1, 1) and (3, 2) it is 1 * 1 * 3 * 2 = 6, where the bounding
    rectangle has area 2. *)
Lemma divisor_is_product_of_bounds :
  bounds_prod (total_bounds [(1, 1); (3, 2)]) = Finite 6 /\
  bounding_rectangle_area [(1, 1); (3, 2)] = 2.
Proof.
  unfold bounding_rectangle_area, bounds_prod, total_bounds.
  cbn [map fold_left fst snd]. SpatialFacts.eval_min_max.
  split; [f_equal|]; lra.
Qed.

Section Quotient.
(** The area of the buffered union, whatever GEOS computes it to be. *)
Variable buffered_union_area : list coord -> R -> R.


End Quotient.

End CoverageFacts.

Module DispersionFacts.
Import Spatial.

Local Open Scope R_scope.

Lemma Rsum_constant (l : list R) (c : R) :
  Forall (fun x => x = c) l -> Rsum l = INR (length l) * c.
Proof.
  induction 1 as [|x l Hx _ IH].
  - simpl. lra.
  - cbn [Rsum fold_right length]. fold (Rsum l). rewrite IH, S_INR, Hx. lra.
Qed.

Lemma mean_constant (l : list R) (c : R) :
  l <> [] -> Forall (fun x => x = c) l -> mean l = c.
Proof.
  intros Hne Hall. unfold mean. rewrite (Rsum_constant l c Hall).
  field. apply not_0_INR. destruct l; [congruence|discriminate].
Qed.

(** The standard deviation of a non-empty list of equal values is zero. *)
Lemma std_constant (l : list R) (c : R) :
  l <> [] -> Forall (fun x => x = c) l -> std l = 0.
Proof.
  intros Hne Hall. unfold std.
  rewrite (mean_constant l c Hne Hall).
  rewrite (mean_constant _ 0).
  - apply sqrt_0.
  - destruct l; [congruence|discriminate].
  - clear Hne. induction Hall as [|x l Hx _ IH]; simpl; constructor.
    + rewrite Hx. replace (c - c) with 0 by lra. rewrite Rabs_R0. lra.
    + exact IH.
Qed.

Lemma single_facility_distances (p : coord) : distances_from_center [p] = [0].
Proof.
  unfold distances_from_center, centroid_of_centroids. cbn [map].
  rewrite !SpatialFacts.mean_singleton.
  rewrite <- surjective_pairing. now rewrite SpatialFacts.distance_self.
Qed.

Lemma two_facilities_distances :
  distances_from_center [(0, 0); (10, 0)] = [5; 5].
Proof.
  unfold distances_from_center, centroid_of_centroids. cbn [map fst snd].
  rewrite !SpatialFacts.mean_pair.
  repeat (apply f_equal2; [apply SpatialFacts.distance_eq; simpl; lra|]).
  reflexivity.
Qed.

(** C9, as the code has it.  For a non-empty facility set the centre is the
    arithmetic-mean coordinate, and the two results are the mean and the
    population standard deviation of the distances to the centre; with one
    facility the standard deviation is 0; for facilities at (0,0) and (10,0)
    the centre is (5,0), the mean distance is 5 and, both distances being 5,
    the standard deviation is 0. *)
Theorem dispersion_of_distances (pts : list coord) :
  pts <> [] ->
  let d := calculate_spatial_dispersion pts in
  centroid_of_centroids pts
  = (Rsum (map fst pts) / INR (length pts), Rsum (map snd pts) / INR (length pts)) /\
  mean_distance_from_center d
  = Finite (Rsum (distances_from_center pts) / INR (length pts)) /\
  std_distance_from_center d = Finite (population_std (distances_from_center pts)) /\
  (forall p, std_distance_from_center (calculate_spatial_dispersion [p]) = Finite 0) /\
  centroid_of_centroids [(0, 0); (10, 0)] = (5, 0) /\
  mean_distance_from_center (calculate_spatial_dispersion [(0, 0); (10, 0)]) = Finite 5 /\
  std_distance_from_center (calculate_spatial_dispersion [(0, 0); (10, 0)]) = Finite 0.
Proof.
  intros Hne. cbv zeta.
  unfold calculate_spatial_dispersion.
  cbn [mean_distance_from_center std_distance_from_center].
  split; [|split; [|split; [|split; [|split; [|split]]]]].
  - unfold centroid_of_centroids, mean. now rewrite !length_map.
  - destruct pts as [|p ps]; [congruence|].
    unfold np_mean, mean. cbn [distances_from_center map].
    now rewrite !length_cons, !length_map.
  - destruct pts as [|p ps]; [congruence|].
    unfold np_std. cbn [distances_from_center map].
    now rewrite SpatialFacts.std_spec.
  - intros p. rewrite single_facility_distances. unfold np_std. f_equal.
    apply (std_constant [0] 0); [discriminate|repeat constructor].
  - unfold centroid_of_centroids. cbn [map fst snd].
    rewrite !SpatialFacts.mean_pair. f_equal; lra.
  - rewrite two_facilities_distances. unfold np_mean. f_equal.
    rewrite SpatialFacts.mean_pair. lra.
  - rewrite two_facilities_distances. unfold np_std. f_equal.
    apply (std_constant [5; 5] 5); [discriminate|repeat constructor].
Qed.

(** C9 as stated fails.  For facilities at (0,0) and (10,0) both distances to
    the centre are 5, so their standard deviation is 0, not 5. *)
Lemma two_facilities_std_is_not_five :
  std_distance_from_center (calculate_spatial_dispersion [(0, 0); (10, 0)])
  = Finite 0 /\
  std_distance_from_center (calculate_spatial_dispersion [(0, 0); (10, 0)])
  <> Finite 5.
Proof.
  assert (H : std_distance_from_center
                (calculate_spatial_dispersion [(0, 0); (10, 0)]) = Finite 0).
  { unfold calculate_spatial_dispersion. cbn [std_distance_from_center].
    rewrite two_facilities_distances. unfold np_std. f_equal.
    apply (std_constant [5; 5] 5); [discriminate|repeat constructor]. }
  split; [exact H|]. rewrite H. intros Heq. inversion Heq. lra.
Qed.

(** Three facilities on a line: the centre is the mean coordinate. *)
Lemma dispersion_of_distances_witness :
  centroid_of_centroids [(0, 0); (3, 0); (6, 0)]
  = (Rsum (map fst [(0, 0); (3, 0); (6, 0)]) / INR 3,
     Rsum (map snd [(0, 0); (3, 0); (6, 0)]) / INR 3).
Proof.
  refine (proj1 (dispersion_of_distances [(0, 0); (3, 0); (6, 0)] _)).
  discriminate.
Defined.

End DispersionFacts.

(** * Further properties of the analysis code *)

(** ** Capacity arithmetic, continued *)

Module CapacityMore.
Import Capacity.

Lemma max_students_positive : (0 < max_students_per_school)%Q.
Proof. reflexivity. Qed.

(** The float64 quotient of a non-negative population in the int64 range:
    it is not negative and does not exceed [2 ^ 63 - 1024], the largest float64
    below [2 ^ 63]. *)
Lemma float64_div_range (q : Q) :
  (0 <= q)%Q -> (q <= 2000 * inject_Z (2 ^ 63 - 1024))%Q ->
  (0 <= float64_div q max_students_per_school)%Q /\
  (float64_div q max_students_per_school <= inject_Z (2 ^ 63 - 1024))%Q.
Proof.
  intros H0 Hq. unfold float64_div, max_students_per_school.
  assert (Hd : (0 <= q / 2000)%Q).
  { apply Qle_shift_div_l; [reflexivity|]. now rewrite Qmult_0_l. }
  split; [now apply Float64Facts.float64_round_nonneg|].
  apply Qle_trans with (float64_round (inject_Z (2 ^ 63 - 1024))).
  - apply Float64Facts.float64_round_mono; [exact Hd|].
    apply Qle_shift_div_r; [reflexivity|]. now rewrite Qmult_comm.
  - vm_compute. discriminate.
Qed.

(** In that range the conversion to int64 keeps the ceiling. *)
Lemma required_schools_in_range (q : Q) :
  (0 <= q)%Q -> (q <= 2000 * inject_Z (2 ^ 63 - 1024))%Q ->
  required_schools q = Qceiling (float64_div q max_students_per_school) /\
  0 <= required_schools q.
Proof.
  intros H0 Hq. destruct (float64_div_range q H0 Hq) as [Hlo Hhi].
  assert (Hc0 : 0 <= Qceiling (float64_div q max_students_per_school)).
  { change 0 with (Qceiling 0). now apply Qceiling_resp_le. }
  assert (Hc1 : Qceiling (float64_div q max_students_per_school) <= 2 ^ 63 - 1024).
  { rewrite <- (Qceiling_Z (2 ^ 63 - 1024)). now apply Qceiling_resp_le. }
  assert (Heq : required_schools q = Qceiling (float64_div q max_students_per_school)).
  { unfold required_schools, np_ceil. apply CapacityFacts.astype_int_in_range.
    unfold INT64_MIN, INT64_MAX.
    change (2 ^ 63) with 9223372036854775808 in *. lia. }
  split; [exact Heq|]. rewrite Heq. exact Hc0.
Qed.

(** X1. The required count grows with the population: a district with at
    least as many people never requires fewer schools (float64 populations
    within the range where the count fits a 64-bit integer). *)
Theorem required_schools_monotone (p q : Q) :
  (0 <= p)%Q -> (p <= q)%Q -> (q <= 2000 * inject_Z INT64_MAX)%Q ->
  (float64_round q == q)%Q ->
  required_schools p <= required_schools q.
Proof.
  intros Hp Hpq Hq Hfloat.
  assert (Hq0 : (0 <= q)%Q) by (eapply Qle_trans; eassumption).
  pose proof (Float64Facts.float64_below_int64_bound q Hq0 Hfloat Hq) as Hq'.
  assert (Hp' : (p <= 2000 * inject_Z (2 ^ 63 - 1024))%Q)
    by (eapply Qle_trans; eassumption).
  destruct (required_schools_in_range p Hp Hp') as [-> _].
  destruct (required_schools_in_range q Hq0 Hq') as [-> _].
  apply Qceiling_resp_le. unfold float64_div.
  apply Float64Facts.float64_round_mono.
  - apply Qle_shift_div_l; [reflexivity|]. now rewrite Qmult_0_l.
  - apply Qmult_le_compat_r; [exact Hpq|]. vm_compute. discriminate.
Qed.

Lemma required_schools_monotone_witness :
  required_schools 1500 <= required_schools 2500.
Proof.
  apply required_schools_monotone;
    first [vm_compute; discriminate | vm_compute; reflexivity].
Defined.

(** X2. For a whole-number population up to [2 ^ 53]: once the additional
    schools are added to the current ones, the capacity of 2000 students per
    school covers the population of the district; and no fewer would do: when
    at least one additional school is asked for, one school less leaves part
    of the population uncovered. *)
Theorem additional_schools_cover_population (n current : Z) :
  0 <= n <= 2 ^ 53 ->
  let additional := additional_schools_needed (required_schools (inject_Z n)) current in
  n <= (current + additional) * 2000 /\
  (0 < additional -> (current + additional - 1) * 2000 < n).
Proof.
  intros Hn additional. subst additional.
  unfold additional_schools_needed.
  rewrite CapacityFacts.py_max_spec, (CapacityFacts.required_schools_whole n Hn).
  assert (HK : 2000 * ((n + 1999) / 2000 - 1) < n <= 2000 * ((n + 1999) / 2000))
    by (Z.div_mod_to_equations; lia).
  split; [lia|]. intros Hpos. lia.
Qed.

Lemma additional_schools_cover_population_witness :
  4500 <= (1 + additional_schools_needed (required_schools (inject_Z 4500)) 1) * 2000.
Proof.
  refine (proj1 (additional_schools_cover_population 4500 1 _)).
  vm_compute. split; discriminate.
Defined.

(** X3. A district with a whole-number population up to [2 ^ 53] requires no
    school exactly when its population is zero: one inhabitant is enough to
    require a school. *)
Theorem required_schools_zero_iff (n : Z) :
  0 <= n <= 2 ^ 53 ->
  (required_schools (inject_Z n) = 0 <-> n = 0) /\
  (0 < n -> 1 <= required_schools (inject_Z n)).
Proof.
  intros Hn. rewrite (CapacityFacts.required_schools_whole n Hn).
  assert (HK : 2000 * ((n + 1999) / 2000 - 1) < n <= 2000 * ((n + 1999) / 2000))
    by (Z.div_mod_to_equations; lia).
  split; [split|]; intros H; lia.
Qed.

Lemma required_schools_zero_iff_witness : 1 <= required_schools (inject_Z 1).
Proof.
  refine (proj2 (required_schools_zero_iff 1 _) _); vm_compute;
    first [split; discriminate | reflexivity].
Defined.

End CapacityMore.

(** ** Join and tables, continued *)

Module AnalyzerMore.
Import Analyzer.

Section Counts.
Context {Geometry : Type}.
Variable within : Geometry -> Geometry -> bool.
Variable reproject : string -> string -> Geometry -> Geometry.

Local Abbreviation District := (District Geometry).
Local Abbreviation joined_row := (Geometry * option District)%type.

Lemma unassigned_app (l1 l2 : list joined_row) :
  unassigned (l1 ++ l2) = unassigned l1 + unassigned l2.
Proof. unfold unassigned. rewrite List.filter_app, length_app. lia. Qed.

Lemma assigned_to_app (name : string) (l1 l2 : list joined_row) :
  assigned_to name (l1 ++ l2) = assigned_to name l1 ++ assigned_to name l2.
Proof. unfold assigned_to. apply List.filter_app. Qed.

Lemma sjoin_cons (cities : list District) (s : Geometry) (schools : list Geometry) :
  sjoin within (s :: schools) cities
  = sjoin_rows within cities s ++ sjoin within schools cities.
Proof. reflexivity. Qed.

Lemma sjoin_rows_nonempty (cities : list District) (s : Geometry) :
  (1 <= length (sjoin_rows within cities s))%nat.
Proof.
  unfold sjoin_rows. destruct (matching within cities s); simpl; lia.
Qed.

Lemma sjoin_rows_first (cities : list District) (s : Geometry) row :
  row ∈ sjoin_rows within cities s -> fst row = s.
Proof.
  unfold sjoin_rows. destruct (matching within cities s) as [|d ms].
  - intros H. apply list_elem_of_In in H as [<-|[]]. reflexivity.
  - intros H. apply list_elem_of_In, in_map_iff in H as (d' & <- & _). reflexivity.
Qed.

Lemma unassigned_sjoin_rows (cities : list District) (s : Geometry) :
  unassigned (sjoin_rows within cities s)
  = match matching within cities s with [] => 1 | _ :: _ => 0 end.
Proof.
  unfold sjoin_rows, unassigned.
  destruct (matching within cities s) as [|d ms]; [reflexivity|].
  generalize (d :: ms). intros l. induction l as [|d' l IH]; simpl; [reflexivity|].
  exact IH.
Qed.

Lemma assigned_to_sjoin_rows (name : string) (cities : list District) (s : Geometry) :
  length (assigned_to name (sjoin_rows within cities s))
  = length (List.filter (fun d => String.eqb (DIST_NAME d) name)
                        (matching within cities s)).
Proof.
  unfold sjoin_rows, assigned_to.
  destruct (matching within cities s) as [|d ms]; [reflexivity|].
  generalize (d :: ms). intros l. induction l as [|d' l IH]; simpl; [reflexivity|].
  destruct (String.eqb (DIST_NAME d') name); simpl; now rewrite IH.
Qed.

(** X4. The left join keeps every school: each school has at least one row,
    the rows without a district are exactly the schools within no polygon,
    and the per-district counts together with the unassigned rows are never
    fewer than the schools. *)
Theorem join_keeps_every_school (schools : list Geometry) (cities : list District) :
  let joined := sjoin within schools cities in
  (forall s, s ∈ schools -> exists row, row ∈ joined /\ fst row = s) /\
  (forall row, row ∈ joined -> fst row ∈ schools) /\
  unassigned joined = Z.of_nat (length (unmatched within schools cities)) /\
  Z.of_nat (length schools) <= total_count (groupby_size joined) + unassigned joined.
Proof.
  cbv zeta. split; [|split; [|split]].
  - intros s Hs.
    pose proof (sjoin_rows_nonempty cities s) as Hlen.
    destruct (sjoin_rows within cities s) as [|row rows'] eqn:Hrows;
      [simpl in Hlen; lia|].
    exists row. split.
    + apply list_elem_of_In, in_flat_map. exists s.
      split; [now apply list_elem_of_In|]. rewrite Hrows. now left.
    + apply (sjoin_rows_first cities s). rewrite Hrows. left.
  - intros row Hrow. apply list_elem_of_In, in_flat_map in Hrow as (s & Hs & Hrow).
    apply list_elem_of_In in Hrow. rewrite (sjoin_rows_first cities s row Hrow).
    now apply list_elem_of_In.
  - induction schools as [|s schools IH]; [reflexivity|].
    rewrite sjoin_cons, unassigned_app, IH, unassigned_sjoin_rows.
    unfold unmatched. simpl.
    destruct (matching within cities s); simpl; lia.
  - rewrite AnalyzerFacts.total_count_groupby.
    induction schools as [|s schools IH]; [simpl; lia|].
    rewrite sjoin_cons, length_app. simpl length.
    pose proof (sjoin_rows_nonempty cities s). lia.
Qed.

(** *** Districts with distinct names *)

Lemma filter_name_none (name : string) (l : list District) :
  name ∉ map DIST_NAME l ->
  List.filter (fun d => String.eqb (DIST_NAME d) name) l = [].
Proof.
  induction l as [|d l IH]; intros Hn; simpl; [reflexivity|].
  destruct (String.eqb_spec (DIST_NAME d) name) as [Heq|Hne].
  - exfalso. apply Hn. rewrite <- Heq. left.
  - apply IH. intros Hin. apply Hn. now right.
Qed.

Lemma matching_name_count (cities : list District) (d : District) (s : Geometry) :
  NoDup (map DIST_NAME cities) -> d ∈ cities ->
  length (List.filter (fun d' => String.eqb (DIST_NAME d') (DIST_NAME d))
                      (matching within cities s))
  = if within s (geometry d) then 1%nat else 0%nat.
Proof.
  unfold matching. induction cities as [|d0 cities IH]; intros Hnd Hd.
  - inversion Hd.
  - simpl in Hnd. apply NoDup_cons in Hnd as [Hnotin Hnd].
    apply elem_of_cons in Hd as [->|Hd].
    + simpl. destruct (within s (geometry d0)) eqn:Hw; simpl.
      * rewrite String.eqb_refl. simpl.
        assert (Hnone : List.filter (fun d' => String.eqb (DIST_NAME d') (DIST_NAME d0))
                          (List.filter (fun d' => within s (geometry d')) cities) = []).
        { apply filter_name_none. intros Hin. apply Hnotin.
          apply list_elem_of_In, in_map_iff in Hin as (x & Hx & Hin).
          apply filter_In in Hin as [Hin _].
          rewrite <- Hx. apply list_elem_of_In, in_map. exact Hin. }
        now rewrite Hnone.
      * assert (Hnone : List.filter (fun d' => String.eqb (DIST_NAME d') (DIST_NAME d0))
                          (List.filter (fun d' => within s (geometry d')) cities) = []).
        { apply filter_name_none. intros Hin. apply Hnotin.
          apply list_elem_of_In, in_map_iff in Hin as (x & Hx & Hin).
          apply filter_In in Hin as [Hin _].
          rewrite <- Hx. apply list_elem_of_In, in_map. exact Hin. }
        now rewrite Hnone.
    + assert (Hne : DIST_NAME d0 <> DIST_NAME d).
      { intros Heq. apply Hnotin. rewrite Heq.
        apply list_elem_of_In, in_map. now apply list_elem_of_In. }
      simpl. destruct (within s (geometry d0)); simpl.
      * destruct (String.eqb_spec (DIST_NAME d0) (DIST_NAME d)); [contradiction|].
        now apply IH.
      * now apply IH.
Qed.

Lemma assigned_count_distinct (schools : list Geometry) (cities : list District)
    (d : District) :
  NoDup (map DIST_NAME cities) -> d ∈ cities ->
  Z.of_nat (length (assigned_to (DIST_NAME d) (sjoin within schools cities)))
  = schools_within within schools d.
Proof.
  intros Hnd Hd. unfold schools_within. f_equal.
  induction schools as [|s schools IH]; [reflexivity|].
  rewrite sjoin_cons, assigned_to_app, length_app, IH, assigned_to_sjoin_rows.
  rewrite (matching_name_count cities d s Hnd Hd). simpl.
  destruct (within s (geometry d)); reflexivity.
Qed.

Lemma current_count_distinct (schools : list Geometry) (cities : list District)
    (d : District) :
  NoDup (map DIST_NAME cities) -> d ∈ cities ->
  default 0 (groupby_size (sjoin within schools cities) !! DIST_NAME d)
  = schools_within within schools d.
Proof.
  intros Hnd Hd. rewrite AnalyzerFacts.groupby_size_lookup.
  rewrite <- (assigned_count_distinct schools cities d Hnd Hd).
  destruct (length (assigned_to (DIST_NAME d) (sjoin within schools cities)));
    reflexivity.
Qed.

(** X5. When the district names are distinct, the count reported for a
    district is the number of schools within its polygon, and the district has
    an entry in the count table exactly when that number is not zero. *)
Theorem count_is_schools_within
    (schools_gdf : GeoDataFrame Geometry) (cities_gdf : GeoDataFrame District)
    (d : District) :
  let r := analysis within reproject schools_gdf cities_gdf in
  let cities := rows (common_crs reproject schools_gdf cities_gdf) in
  NoDup (map DIST_NAME (rows cities_gdf)) -> d ∈ cities ->
  default 0 (res_schools_per_city r !! DIST_NAME d)
  = schools_within within (rows schools_gdf) d /\
  (res_schools_per_city r !! DIST_NAME d = None <->
   schools_within within (rows schools_gdf) d = 0).
Proof.
  intros r cities Hnd Hd. subst r. simpl. fold cities.
  assert (Hnd' : NoDup (map DIST_NAME cities)).
  { unfold cities. now rewrite AnalyzerFacts.common_crs_names. }
  pose proof (current_count_distinct (rows schools_gdf) cities d Hnd' Hd) as Hcount.
  split; [exact Hcount|].
  rewrite <- Hcount, AnalyzerFacts.groupby_size_lookup.
  destruct (length (assigned_to (DIST_NAME d) (sjoin within (rows schools_gdf) cities)));
    simpl; split; intros H; try reflexivity; try discriminate; lia.
Qed.

(** *** Lookups in the output maps *)

Lemma fold_insert_notin (kvs : list (string * Z)) (m : gmap string Z) (k : string) :
  (forall kv, kv ∈ kvs -> fst kv <> k) ->
  fold_left (fun acc kv => <[fst kv := snd kv]> acc) kvs m !! k = m !! k.
Proof.
  revert m. induction kvs as [|[k' v'] kvs IH]; intros m Hne; simpl.
  - reflexivity.
  - rewrite IH by (intros kv Hkv; apply Hne; now right).
    apply lookup_insert_ne. apply (Hne (k', v')). left.
Qed.

(** The value entered last under a key is the one the dictionary holds. *)
Lemma to_dict_last (pre post : list string) (k : string)
    (cpre cpost : list Z) (v : Z) :
  length pre = length cpre -> k ∉ post ->
  to_dict (pre ++ k :: post) (cpre ++ v :: cpost) !! k = Some v.
Proof.
  intros Hlen Hpost. unfold to_dict.
  rewrite zip_with_app by exact Hlen. rewrite fold_left_app. simpl.
  rewrite fold_insert_notin.
  - apply lookup_insert_eq.
  - intros [k' v'] Hkv Heq. simpl in Heq. subst k'.
    apply Hpost. eapply elem_of_zip_l. exact Hkv.
Qed.

Lemma additional_col_map (m : gmap string Z) (cities : list District) :
  additional_col (required_col cities) (current_col m cities)
  = map (fun d => Capacity.additional_schools_needed
                    (Capacity.required_schools (TOTAL_POP d))
                    (default 0 (m !! DIST_NAME d))) cities.
Proof.
  unfold additional_col, required_col, current_col.
  induction cities as [|d cities IH]; simpl; [reflexivity|].
  now rewrite IH.
Qed.

Lemma output_maps_last_row
    (schools_gdf : GeoDataFrame Geometry) (cities_gdf : GeoDataFrame District)
    (pre post : list District) (d : District) :
  let r := analysis within reproject schools_gdf cities_gdf in
  rows (common_crs reproject schools_gdf cities_gdf) = pre ++ d :: post ->
  DIST_NAME d ∉ map DIST_NAME post ->
  res_required_schools r !! DIST_NAME d
  = Some (Capacity.required_schools (TOTAL_POP d)) /\
  res_additional_schools_needed r !! DIST_NAME d
  = Some (Capacity.additional_schools_needed
            (Capacity.required_schools (TOTAL_POP d))
            (default 0 (res_schools_per_city r !! DIST_NAME d))).
Proof.
  intros r Hrows Hpost. subst r. simpl.
  rewrite additional_col_map. rewrite Hrows.
  unfold required_col. rewrite !map_app. simpl.
  split; apply to_dict_last; rewrite ?length_map; auto.
Qed.


(** X7. When several districts share a name, the output maps hold one entry
    for it, computed from the last of these rows of the district table. *)
Theorem shared_name_reports_last_row
    (schools_gdf : GeoDataFrame Geometry) (cities_gdf : GeoDataFrame District)
    (pre post : list District) (d : District) :
  let r := analysis within reproject schools_gdf cities_gdf in
  rows (common_crs reproject schools_gdf cities_gdf) = pre ++ d :: post ->
  DIST_NAME d ∉ map DIST_NAME post ->
  res_required_schools r !! DIST_NAME d
  = Some (Capacity.required_schools (TOTAL_POP d)) /\
  res_additional_schools_needed r !! DIST_NAME d
  = Some (Capacity.additional_schools_needed
            (Capacity.required_schools (TOTAL_POP d))
            (default 0 (res_schools_per_city r !! DIST_NAME d))).
Proof.
  intros r Hrows Hpost. subst r. simpl.
  rewrite additional_col_map, Hrows.
  unfold required_col. rewrite !map_app. simpl.
  split.
  - apply to_dict_last; [now rewrite !length_map|exact Hpost].
  - apply to_dict_last; [now rewrite !length_map|exact Hpost].
Qed.

(** X8. With an empty district table the three maps are empty and every
    school is unassigned; with an empty school table the count table is empty
    and no row is unassigned. *)
Theorem empty_layers
    (schools_gdf : GeoDataFrame Geometry) (cities_gdf : GeoDataFrame District) :
  let r := analysis within reproject schools_gdf cities_gdf in
  let joined := sjoin within (rows schools_gdf)
                  (rows (common_crs reproject schools_gdf cities_gdf)) in
  (rows cities_gdf = [] ->
   res_schools_per_city r = ∅ /\ res_required_schools r = ∅ /\
   res_additional_schools_needed r = ∅ /\
   unassigned joined = res_total_schools r) /\
  (rows schools_gdf = [] ->
   res_schools_per_city r = ∅ /\ res_total_schools r = 0 /\ unassigned joined = 0).
Proof.
  cbv zeta. split.
  - intros Hnil.
    assert (Hrows : rows (common_crs reproject schools_gdf cities_gdf) = []).
    { unfold common_crs. destruct (String.eqb _ _); simpl; rewrite Hnil; reflexivity. }
    unfold analysis. cbn [res_schools_per_city res_required_schools
                          res_additional_schools_needed res_total_schools].
    rewrite Hrows.
    assert (Hjoin : forall schools : list Geometry,
               groupby_size (sjoin within schools []) = ∅ /\
               unassigned (sjoin within schools []) = Z.of_nat (length schools)).
    { induction schools as [|s schools [IHg IHu]]; [split; reflexivity|].
      rewrite sjoin_cons, unassigned_app, IHu. split.
      - simpl. exact IHg.
      - unfold unassigned at 1. simpl. lia. }
    destruct (Hjoin (rows schools_gdf)) as [Hg Hu].
    rewrite Hg, Hu. repeat split; reflexivity.
  - intros Hnil. unfold analysis.
    cbn [res_schools_per_city res_total_schools].
    rewrite Hnil. repeat split; reflexivity.
Qed.

(** *** Order of the schools, and one more school *)

Lemma assigned_length_perm (name : string) (cities : list District)
    (l l' : list Geometry) :
  Permutation l l' ->
  length (assigned_to name (sjoin within l cities))
  = length (assigned_to name (sjoin within l' cities)).
Proof.
  induction 1 as [|s l l' _ IH|s s' l|l l' l'' _ IH1 _ IH2].
  - reflexivity.
  - rewrite !sjoin_cons, !assigned_to_app, !length_app. now rewrite IH.
  - rewrite !sjoin_cons, !assigned_to_app, !length_app. lia.
  - now rewrite IH1.
Qed.

(** X9. The result does not depend on the order of the rows of the school
    table. *)
Theorem school_order_is_irrelevant
    (schools_gdf schools_gdf' : GeoDataFrame Geometry)
    (cities_gdf : GeoDataFrame District) :
  crs schools_gdf = crs schools_gdf' ->
  Permutation (rows schools_gdf) (rows schools_gdf') ->
  analysis within reproject schools_gdf cities_gdf
  = analysis within reproject schools_gdf' cities_gdf.
Proof.
  intros Hcrs Hperm. unfold analysis.
  assert (Hcommon : common_crs reproject schools_gdf cities_gdf
                    = common_crs reproject schools_gdf' cities_gdf).
  { unfold common_crs. now rewrite Hcrs. }
  rewrite <- Hcommon. cbv zeta.
  set (cities := rows (common_crs reproject schools_gdf cities_gdf)).
  assert (Hspc : groupby_size (sjoin within (rows schools_gdf) cities)
                 = groupby_size (sjoin within (rows schools_gdf') cities)).
  { apply map_eq. intros name. rewrite !AnalyzerFacts.groupby_size_lookup.
    now rewrite (assigned_length_perm name cities _ _ Hperm). }
  rewrite Hspc, (Permutation_length Hperm). reflexivity.
Qed.


End Counts.

(** *** The further properties on the grid layers *)

Lemma count_is_schools_within_witness :
  default 0 (res_schools_per_city
               (analysis Grid.within Grid.reproject
                  Grid.two_schools Grid.separate_districts)
             !! DIST_NAME Grid.district_A)
  = schools_within Grid.within (rows Grid.two_schools) Grid.district_A.
Proof.
  refine (proj1 (count_is_schools_within Grid.within Grid.reproject
                   Grid.two_schools Grid.separate_districts Grid.district_A _ _)).
  - repeat constructor; vm_compute; set_solver.
  - left.
Defined.


Lemma shared_name_reports_last_row_witness :
  res_required_schools
    (analysis Grid.within Grid.reproject Grid.two_schools Grid.shared_name_districts)
  !! "A"
  = Some (Capacity.required_schools 7000).
Proof.
  refine (proj1 (shared_name_reports_last_row Grid.within Grid.reproject
                   Grid.two_schools Grid.shared_name_districts
                   [Grid.district_A; Grid.district_C] [] Grid.district_A_again _ _)).
  - reflexivity.
  - apply not_elem_of_nil.
Defined.

Example shared_name_value :
  res_required_schools
    (analysis Grid.within Grid.reproject Grid.two_schools Grid.shared_name_districts)
  !! "A" = Some 4.
Proof. vm_compute. reflexivity. Qed.

Lemma school_order_is_irrelevant_witness :
  analysis Grid.within Grid.reproject Grid.two_schools Grid.separate_districts
  = analysis Grid.within Grid.reproject
      (mkFrame "EPSG:4326" [Grid.GPoint 50 50; Grid.GPoint 5 5])
      Grid.separate_districts.
Proof.
  apply school_order_is_irrelevant.
  - reflexivity.
  - apply perm_swap.
Defined.

End AnalyzerMore.

(** ** Loading and frame updates, continued *)

Module SessionMore.
Import Analyzer Session.

Section RunMore.
Context {Geometry : Type}.
Variable within : Geometry -> Geometry -> bool.
Variable reproject : string -> string -> Geometry -> Geometry.

Local Abbreviation Source := (@Source Geometry).
Local Abbreviation Frame := (@Frame Geometry).
Local Abbreviation Env := (@Env Geometry).

#[local] Arguments new_frame : simpl never.
#[local] Arguments get_frame : simpl never.
#[local] Arguments put_frame : simpl never.
#[local] Arguments astype_float : simpl never.
#[local] Arguments to_crs : simpl never.
#[local] Arguments to_dict : simpl never.
#[local] Arguments required_col : simpl never.
#[local] Arguments current_col : simpl never.
#[local] Arguments additional_col : simpl never.
#[local] Arguments groupby_size : simpl never.
#[local] Arguments sjoin : simpl never.

Ltac frame_step :=
  first [ rewrite SessionFacts.get_frame_new
        | rewrite SessionFacts.put_frame_new
        | rewrite SessionFacts.new_frame_new ]; cbn.

(** X11. When the school layer holds a school table and the district layer a
    district table, a run returns the analysis of the two tables as loaded,
    whatever frames are already in memory. *)
Theorem run_returns_analysis (env : Env) (school_layer cities_layer : string)
    (schools_gdf : GeoDataFrame Geometry) (cities_gdf : GeoDataFrame (District Geometry)) :
  sources env !! school_layer = Some (SchoolSource schools_gdf) ->
  sources env !! cities_layer = Some (DistrictSource cities_gdf) ->
  fst (analyze_school_distribution within reproject school_layer cities_layer env)
  = inr (analysis within reproject schools_gdf cities_gdf).
Proof.
  destruct env as [S old]. simpl. intros Hs Hc.
  destruct (SessionFacts.analyze_run within reproject S old school_layer cities_layer)
    as (new & Hrun & _).
  rewrite Hrun, Hs, Hc. reflexivity.
Qed.

(** X12. A run fails with the loader's exception when the source of either
    layer cannot be read; when it is the school layer, which is read first,
    nothing is loaded and the state is left as it was. *)
Theorem run_fails_without_tables (env : Env) (school_layer cities_layer : string) :
  (sources env !! school_layer = None ->
   analyze_school_distribution within reproject school_layer cities_layer env
   = (inl DataSourceError, env)) /\
  (sources env !! cities_layer = None ->
   fst (analyze_school_distribution within reproject school_layer cities_layer env)
   = inl DataSourceError).
Proof.
  destruct env as [S old]. simpl.
  destruct (SessionFacts.analyze_run within reproject S old school_layer cities_layer)
    as (new & Hrun & _).
  split.
  - intros Hs. unfold analyze_school_distribution, bind, layer_to_geopandas.
    simpl. now rewrite Hs.
  - intros Hc. rewrite Hrun, Hc. simpl.
    destruct (S !! school_layer) as [[?|?]|]; reflexivity.
Qed.

(** X13. After a successful run the frames in memory are the earlier ones,
    followed by the school table as loaded and by the district frame that
    carries the three derived columns.  When the two layers differ in their
    coordinate reference system, the district table as loaded stays in memory
    without any derived column: the columns are assigned in its reprojected
    copy. *)
Theorem frames_after_run (S : gmap string Source) (old : list Frame)
    (school_layer cities_layer : string)
    (schools_gdf : GeoDataFrame Geometry) (cities_gdf : GeoDataFrame (District Geometry)) :
  S !! school_layer = Some (SchoolSource schools_gdf) ->
  S !! cities_layer = Some (DistrictSource cities_gdf) ->
  let cities := common_crs reproject schools_gdf cities_gdf in
  let schools_per_city := groupby_size (sjoin within (rows schools_gdf) (rows cities)) in
  let required := required_col (rows cities) in
  let current := current_col schools_per_city (rows cities) in
  frames (snd (analyze_school_distribution within reproject school_layer cities_layer
                 (mkEnv S old)))
  = old ++ [SchoolFrame schools_gdf]
        ++ (if String.eqb (crs schools_gdf) (crs cities_gdf) then []
            else [CitiesFrame cities_gdf None None None])
        ++ [CitiesFrame cities (Some required) (Some current)
              (Some (additional_col required current))].
Proof.
  intros Hs Hc. cbv zeta.
  rewrite <- (app_nil_r old) at 1.
  unfold analyze_school_distribution, with_cities, bind,
    layer_to_geopandas, column, ret, raise.
  cbn. rewrite Hs. frame_step. rewrite Hc.
  repeat frame_step.
  unfold common_crs.
  destruct (String.eqb (crs schools_gdf) (crs cities_gdf)); repeat frame_step;
    rewrite ?SessionFacts.astype_float_id; reflexivity.
Qed.

End RunMore.

Lemma run_returns_analysis_witness :
  fst (analyze_school_distribution Grid.within Grid.reproject
         "schools.shp" "districts.shp" grid_project)
  = inr (analysis Grid.within Grid.reproject Grid.two_schools Grid.separate_districts).
Proof.
  apply run_returns_analysis; reflexivity.
Defined.

Lemma run_fails_without_tables_witness :
  fst (analyze_school_distribution Grid.within Grid.reproject
         "schools.shp" "nowhere.shp" grid_project)
  = inl DataSourceError.
Proof.
  refine (proj2 (run_fails_without_tables Grid.within Grid.reproject
                   grid_project "schools.shp" "nowhere.shp") _).
  reflexivity.
Defined.

Lemma frames_after_run_witness :
  frames (snd (analyze_school_distribution Grid.within Grid.reproject
                 "schools.shp" "districts.shp" grid_project))
  = [SchoolFrame Grid.two_schools]
      ++ []
      ++ [CitiesFrame Grid.separate_districts
            (Some (required_col (rows Grid.separate_districts)))
            (Some (current_col
                     (groupby_size (sjoin Grid.within (rows Grid.two_schools)
                                      (rows Grid.separate_districts)))
                     (rows Grid.separate_districts)))
            (Some (additional_col
                     (required_col (rows Grid.separate_districts))
                     (current_col
                        (groupby_size (sjoin Grid.within (rows Grid.two_schools)
                                         (rows Grid.separate_districts)))
                        (rows Grid.separate_districts))))].
Proof.
  exact (frames_after_run Grid.within Grid.reproject (sources grid_project) []
           "schools.shp" "districts.shp" Grid.two_schools Grid.separate_districts
           eq_refl eq_refl).
Defined.

End SessionMore.

(** ** The analysis of the utility module *)

Module OverviewFacts.
Import Spatial Overview.

Section Distribution.
Context {Geometry : Type}.
Variable point_xy : Geometry -> coord.
Variable intersects : Geometry -> Geometry -> bool.
Variable Voronoi : list coord -> PyExc + Voronoi_diagram.
Variable buffered_union_area : list coord -> R -> R.

Local Abbreviation District := (Analyzer.District Geometry).

(** The keys of the count table of a join are the names of the districts that
    some school is joined to. *)
Lemma groupby_keys (schools : list Geometry) (districts : list District)
    (name : string) :
  name ∈ dom (Analyzer.groupby_size (Analyzer.sjoin intersects schools districts)) <->
  exists s d, s ∈ schools /\ d ∈ districts /\
              intersects s (Analyzer.geometry d) = true /\ Analyzer.DIST_NAME d = name.
Proof.
  rewrite elem_of_dom, AnalyzerFacts.groupby_size_lookup.
  set (joined := Analyzer.sjoin intersects schools districts).
  assert (Hrows : (exists row, row ∈ Analyzer.assigned_to name joined) <->
                  exists s d, s ∈ schools /\ d ∈ districts /\
                    intersects s (Analyzer.geometry d) = true /\
                    Analyzer.DIST_NAME d = name).
  { split.
    - intros [[s od] Hrow]. apply list_elem_of_In, filter_In in Hrow as [Hin Hd].
      simpl in Hd. destruct od as [d|]; [|discriminate].
      apply String.eqb_eq in Hd.
      apply in_flat_map in Hin as (s' & Hs' & Hin).
      unfold Analyzer.sjoin_rows in Hin.
      destruct (Analyzer.matching intersects districts s') as [|d0 ms] eqn:Hm.
      + destruct Hin as [Hin|[]]. discriminate.
      + apply in_map_iff in Hin as (d' & Heq & Hd'). inversion Heq; subst.
        rewrite <- Hm in Hd'. apply filter_In in Hd' as [Hd' Hw].
        exists s, d. rewrite !list_elem_of_In. auto.
    - intros (s & d & Hs & Hd & Hw & Hn).
      exists (s, Some d). apply list_elem_of_In, filter_In. split.
      + apply in_flat_map. exists s. split; [now apply list_elem_of_In|].
        assert (Hin : In d (Analyzer.matching intersects districts s)).
        { apply filter_In. split; [now apply list_elem_of_In|exact Hw]. }
        unfold Analyzer.sjoin_rows.
        destruct (Analyzer.matching intersects districts s) as [|d0 ms].
        * destruct Hin.
        * apply in_map_iff. eauto.
      + simpl. now apply String.eqb_eq. }
  rewrite <- Hrows.
  destruct (Analyzer.assigned_to name joined) as [|row l]; simpl.
  - split; [intros [x Hx]; discriminate|intros [row Hrow]; inversion Hrow].
  - split; [intros _; exists row; left|intros _; eexists; reflexivity].
Qed.

(** X14. In the district distribution, every district name falls in exactly
    one of the two parts: it is a key of the count table when some school
    intersects a polygon of that name, and it is listed among the districts
    with no schools otherwise; no other name occurs in either part. *)
Theorem district_distribution_partitions_names
    (schools : list Geometry) (districts : list District) :
  let dd := district_distribution_of intersects schools districts in
  dom (school_count_by_district dd) ∪ districts_with_no_schools dd
  = list_to_set (map Analyzer.DIST_NAME districts) /\
  dom (school_count_by_district dd) ## districts_with_no_schools dd /\
  (forall name, name ∈ districts_with_no_schools dd <->
     name ∈ map Analyzer.DIST_NAME districts /\
     forall s d, s ∈ schools -> d ∈ districts -> Analyzer.DIST_NAME d = name ->
                 intersects s (Analyzer.geometry d) = false).
Proof.
  cbv zeta. unfold district_distribution_of.
  cbn [school_count_by_district districts_with_no_schools].
  set (counts := Analyzer.groupby_size (Analyzer.sjoin intersects schools districts)).
  assert (Hsub : dom counts ⊆ list_to_set (map Analyzer.DIST_NAME districts)).
  { intros name Hname. apply groupby_keys in Hname as (s & d & _ & Hd & _ & <-).
    apply elem_of_list_to_set, list_elem_of_In, in_map.
    now apply list_elem_of_In. }
  split; [|split].
  - apply set_eq. intros name. rewrite elem_of_union, elem_of_difference.
    split.
    + intros [H|[H _]]; [now apply Hsub|exact H].
    + intros H. destruct (decide (name ∈ dom counts)); [left|right]; auto.
  - intros name H1 H2. apply elem_of_difference in H2 as [_ H2]. contradiction.
  - intros name. rewrite elem_of_difference, elem_of_list_to_set.
    unfold counts. rewrite groupby_keys. split.
    + intros [Hin Hno]. split; [exact Hin|].
      intros s d Hs Hd Hn.
      destruct (intersects s (Analyzer.geometry d)) eqn:Hw; [|reflexivity].
      exfalso. apply Hno. exists s, d. auto.
    + intros [Hin Hno]. split; [exact Hin|].
      intros (s & d & Hs & Hd & Hw & Hn).
      rewrite (Hno s d Hs Hd Hn) in Hw. discriminate.
Qed.

(** X15. The analysis succeeds exactly when the nearest-neighbour section
    does.  When the construction of the diagram raises, or when the diagram
    yields no ridge distance, the whole analysis raises that exception and
    returns none of the other sections; otherwise it returns all of them, with
    the number of schools among the basic metrics. *)
Theorem analysis_fails_with_proximity
    (schools : list Geometry) (districts : option (list District)) :
  let coords := map point_xy schools in
  let result :=
    analyze_school_distribution point_xy intersects Voronoi buffered_union_area
      schools districts in
  (forall e, Voronoi coords = inl e -> result = inl e) /\
  (forall vor, Voronoi coords = inr vor -> ridge_lengths coords vor = [] ->
     result = inl ValueError) /\
  (forall vor, Voronoi coords = inr vor -> ridge_lengths coords vor <> [] ->
     exists r, result = inr r /\
       total_schools (basic_metrics r) = Z.of_nat (length schools) /\
       coverage r = calculate_coverage buffered_union_area coords 10 /\
       spatial_dispersion r = calculate_spatial_dispersion coords /\
       calculate_nearest_neighbor_distance Voronoi coords
       = inr (spatial_accessibility r)).
Proof.
  cbv zeta. unfold analyze_school_distribution, calculate_nearest_neighbor_distance.
  destruct (Voronoi (map point_xy schools)) as [e|vor] eqn:Hv.
  - split; [|split].
    + intros e' He'. inversion He'. reflexivity.
    + intros vor Hvor. discriminate.
    + intros vor Hvor. discriminate.
  - split; [|split].
    + intros e He. discriminate.
    + intros vor' Hvor Hnil. inversion Hvor; subst vor'. now rewrite Hnil.
    + intros vor' Hvor Hne. inversion Hvor; subst vor'.
      destruct (ridge_lengths (map point_xy schools) vor) as [|x l]; [congruence|].
      simpl. eexists. repeat split.
Qed.

End Distribution.
End OverviewFacts.

(** ** Nearest-neighbour statistics, continued *)

Module ProximityMore.
Import Spatial.

Local Open Scope R_scope.

(** *** The order of the ridges *)

Lemma filter_perm {A} (f : A -> bool) (l l' : list A) :
  Permutation l l' -> Permutation (List.filter f l) (List.filter f l').
Proof.
  induction 1 as [|x l l' _ IH|x y l|l l' l'' _ IH1 _ IH2]; simpl.
  - constructor.
  - destruct (f x); [now constructor|exact IH].
  - destruct (f x), (f y); try reflexivity. apply perm_swap.
  - now transitivity (List.filter f l').
Qed.

Lemma np_min_perm (l l' : list R) : Permutation l l' -> np_min l = np_min l'.
Proof.
  intros Hp. destruct (np_min l) as [e|m] eqn:Hmin.
  - destruct l as [|x l]; [|discriminate]. inversion Hmin; subst e.
    apply Permutation_nil in Hp. now subst.
  - symmetry. apply SpatialFacts.np_min_spec.
    apply SpatialFacts.np_min_spec in Hmin as [Hin Hlow].
    split; [eapply Permutation_in; eassumption|].
    intros y Hy. apply Hlow. eapply Permutation_in; [symmetry|]; eassumption.
Qed.

Lemma np_max_perm (l l' : list R) : Permutation l l' -> np_max l = np_max l'.
Proof.
  intros Hp. destruct (np_max l) as [e|m] eqn:Hmax.
  - destruct l as [|x l]; [|discriminate]. inversion Hmax; subst e.
    apply Permutation_nil in Hp. now subst.
  - symmetry. apply SpatialFacts.np_max_spec.
    apply SpatialFacts.np_max_spec in Hmax as [Hin Hup].
    split; [eapply Permutation_in; eassumption|].
    intros y Hy. apply Hup. eapply Permutation_in; [symmetry|]; eassumption.
Qed.

(** X17. The minimum and the maximum do not depend on the order in which the
    diagram lists its ridges: for two diagrams of the same points whose ridge
    lists are permutations of each other, either both runs raise the same
    exception or both return, with the same minimum and the same maximum. *)
Theorem ridge_order_is_irrelevant
    (Voronoi Voronoi' : list coord -> PyExc + Voronoi_diagram)
    (geometry_series : list coord) (vor vor' : Voronoi_diagram) :
  Voronoi geometry_series = inr vor ->
  Voronoi' geometry_series = inr vor' ->
  Permutation (ridge_points vor) (ridge_points vor') ->
  match calculate_nearest_neighbor_distance Voronoi geometry_series,
        calculate_nearest_neighbor_distance Voronoi' geometry_series with
  | inr stats, inr stats' =>
      min_nearest_neighbor_distance stats = min_nearest_neighbor_distance stats' /\
      max_nearest_neighbor_distance stats = max_nearest_neighbor_distance stats'
  | inl e, inl e' => e = e'
  | _, _ => False
  end.
Proof.
  intros Hv Hv' Hperm. unfold calculate_nearest_neighbor_distance.
  rewrite Hv, Hv'.
  assert (Hl : Permutation (ridge_lengths geometry_series vor)
                           (ridge_lengths geometry_series vor')).
  { unfold ridge_lengths. apply Permutation_map. now apply filter_perm. }
  rewrite (np_min_perm _ _ Hl), (np_max_perm _ _ Hl).
  destruct (np_min (ridge_lengths geometry_series vor')) as [e|lo]; [reflexivity|].
  destruct (np_max (ridge_lengths geometry_series vor')) as [e|hi]; [reflexivity|].
  split; reflexivity.
Qed.

Lemma ridge_order_is_irrelevant_witness :
  match calculate_nearest_neighbor_distance
          (fun _ => inr rectangle_diagram) rectangle_coords,
        calculate_nearest_neighbor_distance
          (fun _ => inr (mkVoronoi (vertices rectangle_diagram)
                           [(0, 2); (0, 1); (0, 3); (0, 4);
                            (1, 2); (1, 3); (3, 4); (2, 4)]%Z
                           (ridge_vertices rectangle_diagram)))
          rectangle_coords with
  | inr stats, inr stats' =>
      min_nearest_neighbor_distance stats = min_nearest_neighbor_distance stats' /\
      max_nearest_neighbor_distance stats = max_nearest_neighbor_distance stats'
  | inl e, inl e' => e = e'
  | _, _ => False
  end.
Proof.
  eapply ridge_order_is_irrelevant; [reflexivity|reflexivity|].
  apply perm_swap.
Defined.

End ProximityMore.

(** ** Coverage, continued *)

Module CoverageMore.
Import Spatial.

Local Open Scope R_scope.

Section Sign.
Variable buffered_union_area : list coord -> R -> R.

(** X21. The percentage is not confined to the range from 0 to 100 and
    depends on where the facilities lie: when they lie on both sides of the
    axis x = 0 and all have a positive y coordinate, the divisor is negative
    and, for a positive union area, the reported percentage is a negative
    number. *)
Theorem coverage_percentage_can_be_negative (pts : list coord) (radius : R) :
  (exists p, In p pts /\ fst p < 0) ->
  (exists q, In q pts /\ 0 < fst q) ->
  (forall p, In p pts -> 0 < snd p) ->
  0 < buffered_union_area pts radius ->
  exists v, coverage_percentage (calculate_coverage buffered_union_area pts radius)
            = Finite v /\ v < 0.
Proof.
  intros (p & Hp & Hpx) (q & Hq & Hqx) Hy Harea.
  destruct pts as [|p0 ps]; [destruct Hp|].
  unfold calculate_coverage. cbn [coverage_percentage].
  set (a := buffered_union_area (p0 :: ps) radius) in *.
  unfold total_bounds, bounds_prod.
  set (minx := fold_left Rmin (map fst ps) (fst p0)).
  set (miny := fold_left Rmin (map snd ps) (snd p0)).
  set (maxx := fold_left Rmax (map fst ps) (fst p0)).
  set (maxy := fold_left Rmax (map snd ps) (snd p0)).
  assert (Hminx : minx < 0).
  { destruct (SpatialFacts.fold_min_lower (map fst ps) (fst p0)) as [H0 Hl].
    fold minx in H0, Hl.
    destruct Hp as [<-|Hp]; [lra|].
    assert (minx <= fst p) by (apply Hl; now apply in_map). lra. }
  assert (Hmaxx : 0 < maxx).
  { destruct (SpatialFacts.fold_max_upper (map fst ps) (fst p0)) as [H0 Hl].
    fold maxx in H0, Hl.
    destruct Hq as [<-|Hq]; [lra|].
    assert (fst q <= maxx) by (apply Hl; now apply in_map). lra. }
  assert (Hys : forall y, In y (snd p0 :: map snd ps) -> 0 < y).
  { intros y [<-|Hin]; [apply Hy; now left|].
    apply in_map_iff in Hin as (r & <- & Hr). apply Hy. now right. }
  assert (Hminy : 0 < miny) by (apply Hys, SpatialFacts.fold_min_attained).
  assert (Hmaxy : 0 < maxy) by (apply Hys, SpatialFacts.fold_max_attained).
  assert (Hd : minx * miny * maxx * maxy < 0).
  { assert (minx * miny < 0) by nra.
    assert (minx * miny * maxx < 0) by nra. nra. }
  unfold np_div.
  destruct (Req_dec_T (minx * miny * maxx * maxy) 0) as [Hz|Hnz]; [lra|].
  cbn [np_mul]. eexists. split; [reflexivity|].
  assert (Hinv : / (minx * miny * maxx * maxy) < 0) by now apply Rinv_lt_0_compat.
  unfold Rdiv. nra.
Qed.

End Sign.

Lemma coverage_percentage_can_be_negative_witness :
  exists v, coverage_percentage
              (calculate_coverage (fun _ _ => 1) [(-1, 1); (2, 3)] 10)
            = Finite v /\ v < 0.
Proof.
  apply coverage_percentage_can_be_negative.
  - exists (-1, 1). split; [now left|simpl; lra].
  - exists (2, 3). split; [right; now left|simpl; lra].
  - intros p [<-|[<-|[]]]; simpl; lra.
  - lra.
Defined.

End CoverageMore.
